(** * A shallow embedding of the head-only logger [include/log.h]

    The development follows the header top-down: the enumerations, the
    exception type, the output-stream fragment the header relies on, the
    RAII colour setter, the [Logger] class with its background thread, and
    then the properties of the class. *)

From Stdlib Require Import String Ascii ZArith List Lia Bool DecimalString.
Import ListNotations.
Local Open Scope string_scope.
Local Open Scope Z_scope.

(** ** Enumerations *)

(** [enum class LogLevel { DBUG, INFO, WARN, EROR }] *)
Inductive LogLevel : Type := DBUG | INFO | WARN | EROR.

(** The underlying values of the enumerators, which is what [>=] on an
    [enum class] compares. *)
Definition LogLevel_value (l : LogLevel) : Z :=
  match l with DBUG => 0 | INFO => 1 | WARN => 2 | EROR => 3 end.

Definition LogLevel_ge (a b : LogLevel) : bool :=
  LogLevel_value b <=? LogLevel_value a.

Definition LogLevel_lt (a b : LogLevel) : bool :=
  LogLevel_value a <? LogLevel_value b.

(** [enum class ConsoleColor { DEFAULT = 0, BLACK = 30, RED, GREEN, ... }] *)
Inductive ConsoleColor : Type :=
  DEFAULT | BLACK | RED | GREEN | YELLOW | BLUE | MAGENTA | CYAN | WHITE.

Definition ConsoleColor_value (c : ConsoleColor) : Z :=
  match c with
  | DEFAULT => 0
  | BLACK => 30
  | RED => 31
  | GREEN => 32
  | YELLOW => 33
  | BLUE => 34
  | MAGENTA => 35
  | CYAN => 36
  | WHITE => 37
  end.

(** ** Exceptions

    [LogException] is the header's own exception; [system_error] is the
    [std::system_error] that [std::thread::join] raises on a thread that is
    not joinable. *)
Inductive exn : Type :=
| LogException (message : string)
| system_error.

Definition what (e : exn) : string :=
  match e with
  | LogException message => message
  | system_error => "Invalid argument"
  end.

(** ** Characters and strings *)

Definition ESC : ascii := ascii_of_nat 27.
Definition LF : ascii := ascii_of_nat 10.
Definition newline : string := String LF "".

(** Decimal text of an integer, as [operator<<] prints an [int], a [long]
    or an [unsigned long]. *)
Definition dec (n : Z) : string := NilZero.string_of_int (Z.to_int n).

Fixpoint replicate (n : nat) (c : ascii) : string :=
  match n with
  | O => ""
  | S k => String c (replicate k c)
  end.

(** Right-adjusted output in a field: the fill characters go in front. *)
Definition pad (fill : ascii) (width : nat) (s : string) : string :=
  replicate (width - String.length s) fill ++ s.

(** ** The fragment of [std::ostringstream] used by the header

    A stream is its buffer together with the two pieces of formatting
    state the header touches: the fill character and the field width.  The
    width applies to the next formatted insertion only and is then reset. *)
Record ostringstream : Type := mk_oss {
  oss_str : string;
  oss_fill : ascii;
  oss_width : nat
}.

Definition oss_new : ostringstream :=
  {| oss_str := ""; oss_fill := " "%char; oss_width := 0 |}.

Definition inserter : Type := ostringstream -> ostringstream.

(** [os << s] for a string or a character literal. *)
Definition text (s : string) : inserter := fun os =>
  {| oss_str := oss_str os ++ pad (oss_fill os) (oss_width os) s;
     oss_fill := oss_fill os;
     oss_width := 0 |}.

(** [os << n] for an integer. *)
Definition int (n : Z) : inserter := text (dec n).

(** [os << std::setfill(c)] *)
Definition setfill (c : ascii) : inserter := fun os =>
  {| oss_str := oss_str os; oss_fill := c; oss_width := oss_width os |}.

(** [os << std::setw(n)] *)
Definition setw (n : nat) : inserter := fun os =>
  {| oss_str := oss_str os; oss_fill := oss_fill os; oss_width := n |}.

(** [os << std::endl]: an unformatted newline (the flush has no effect on a
    string stream). *)
Definition endl : inserter := fun os =>
  {| oss_str := oss_str os ++ newline;
     oss_fill := oss_fill os;
     oss_width := oss_width os |}.

Declare Scope stream_scope.
Delimit Scope stream_scope with stream.
Notation "os << f" := (f os)
  (at level 55, left associativity, only parsing) : stream_scope.
Local Open Scope stream_scope.

(** ** Calendar time

    [struct tm] as [std::localtime] fills it, restricted to the fields that
    the format string ["%Y-%m-%d %H:%M:%S"] reads. *)
Record tm : Type := mk_tm {
  tm_year : Z;   (* years since 1900 *)
  tm_mon : Z;    (* months since January, 0..11 *)
  tm_mday : Z;
  tm_hour : Z;
  tm_min : Z;
  tm_sec : Z
}.

(** One reading of [std::chrono::system_clock::now()]: the time since the
    epoch in milliseconds, and the broken-down local time that
    [std::localtime] returns for its whole seconds. *)
Record time_point : Type := mk_time_point {
  since_epoch_ms : Z;
  local : tm
}.

Definition two_digits (n : Z) : string := pad "0"%char 2 (dec n).

(** [os << std::put_time(tm, "%Y-%m-%d %H:%M:%S")] *)
Definition put_time (t : tm) : inserter := fun os =>
  {| oss_str := oss_str os
       ++ dec (tm_year t + 1900) ++ "-" ++ two_digits (tm_mon t + 1)
       ++ "-" ++ two_digits (tm_mday t)
       ++ " " ++ two_digits (tm_hour t)
       ++ ":" ++ two_digits (tm_min t)
       ++ ":" ++ two_digits (tm_sec t);
     oss_fill := oss_fill os;
     oss_width := oss_width os |}.

(** ** [ConsoleColorSetter]

    The constructor renders the escape sequence into [_strColorCode];
    [operator<<] inserts it into a stream; the destructor writes the reset
    sequence to [std::cout], whatever stream the setter was inserted in. *)
Record ConsoleColorSetter : Type := mk_setter { _strColorCode : string }.

Definition ConsoleColorSetter_new (color : ConsoleColor) : ConsoleColorSetter :=
  let oss := oss_new << text (String ESC "[") << int (ConsoleColor_value color)
                     << text "m" in
  {| _strColorCode := oss_str oss |}.

Definition color (colorSetter : ConsoleColorSetter) : inserter :=
  text (_strColorCode colorSetter).

Definition _resetColor (cout : string) : string := cout ++ String ESC "[0m".

Definition ConsoleColorSetter_delete (colorSetter : ConsoleColorSetter)
  (cout : string) : string := _resetColor cout.

(** ** Pure members of [Logger] *)

Definition _logLevelToString (level : LogLevel) : string :=
  match level with
  | INFO => "INFO"
  | WARN => "WARN"
  | EROR => "EROR"
  | DBUG => "DBUG"
  end.

Definition is_slash (c : ascii) : bool :=
  (c =? "/")%char || (c =? "\")%char.

(** The loop of [_extractFilename].  A [const char*] is modelled by the
    characters it points at, up to the terminator, so that [ptr + 1] is the
    tail of [ptr]. *)
Fixpoint _extractFilename_loop (ptr filename : string) : string :=
  match ptr with
  | EmptyString => filename
  | String c rest =>
      _extractFilename_loop rest (if is_slash c then rest else filename)
  end.

Definition _extractFilename (filePath : string) : string :=
  _extractFilename_loop filePath filePath.

(** [_formatLogMessage].  The clock reading [now] and the thread id that
    [_getProcessId] obtains from the operating system are inputs. *)
Definition _formatLogMessage (now : time_point) (tid : Z)
  (level : LogLevel) (message file func : string) (line : Z) : string :=
  let ms := Z.rem (since_epoch_ms now) 1000 in
  let t := local now in
  let oss := oss_new in
  let oss := oss << text "[" << put_time t << text "." << setfill "0"%char
                 << setw 3 << int ms << text "] " in
  let oss := oss << text "[" << text (_logLevelToString level) << text "]" in
  let oss := oss << text "[" << int tid << text "]: " << text message in
  let oss := oss << text " (" << text (_extractFilename file) << text " "
                 << text func << text ":" << int line << text ")" << endl in
  oss_str oss.

(** ** The state of the program

    The tuple stored in [_LogQueue]. *)
Record LogEntry : Type := mk_entry {
  entry_level : LogLevel;
  entry_message : string;
  entry_file : string;
  entry_func : string;
  entry_line : Z
}.

(** The two threads of the program: the thread that calls the public
    members of [Logger], and the background thread that [init] starts. *)
Inductive thread_id : Type := Caller | Consumer.

(** Control points of [_processLogQueue]. *)
Inductive consumer_pc : Type :=
| AtOuterTest                  (* while (!_bStopThread) *)
| AtLock                       (* unique_lock lock(_tMutex), also the
                                  reacquisition when the wait is woken *)
| AtWait                       (* wait(lock, pred): lock held, testing pred *)
| Asleep                       (* inside wait: lock released, not notified *)
| AtInnerTest                  (* while (!_LogQueue.empty()), lock held *)
| AtEmit (logEntry : LogEntry) (* after lock.unlock(): format and write *)
| AtRelock                     (* lock.lock() *)
| Finished.                    (* _processLogQueue has returned *)

(** [std::thread]: default-constructed or joined, or owning the thread that
    runs [_processLogQueue]. *)
Inductive thread : Type :=
| not_a_thread
| running (pc : consumer_pc).

Definition joinable (t : thread) : bool :=
  match t with not_a_thread => false | running _ => true end.

(** Where the calling thread is: between calls, or suspended inside
    [wait()] or inside the [join] of [shutdown()]. *)
Inductive caller_pc : Type := Idle | InWait | InJoin.

(** The files of the machine, by path. *)
Definition files : Type := string -> string.

(** The data members of the [Logger] singleton (the condition variable has
    no state of its own here: its waiter is the consumer at [Asleep]),
    followed by what the program shares with its environment. *)
Record state : Type := mk_state {
  _bStopThread : bool;
  _tMutex : option thread_id;
  _eLogLevel : LogLevel;
  _tAsyncThread : thread;
  _tFileStream : option string;     (* the path, when is_open() *)
  _eConsoleColorThreshold : LogLevel;
  _LogQueue : list LogEntry;
  cout : string;
  disk : files;
  caller : caller_pc
}.

Definition set_bStopThread (b : bool) (s : state) : state :=
  mk_state b (_tMutex s) (_eLogLevel s) (_tAsyncThread s) (_tFileStream s)
    (_eConsoleColorThreshold s) (_LogQueue s) (cout s) (disk s) (caller s).

Definition set_tMutex (m : option thread_id) (s : state) : state :=
  mk_state (_bStopThread s) m (_eLogLevel s) (_tAsyncThread s) (_tFileStream s)
    (_eConsoleColorThreshold s) (_LogQueue s) (cout s) (disk s) (caller s).

Definition set_eLogLevel (l : LogLevel) (s : state) : state :=
  mk_state (_bStopThread s) (_tMutex s) l (_tAsyncThread s) (_tFileStream s)
    (_eConsoleColorThreshold s) (_LogQueue s) (cout s) (disk s) (caller s).

Definition set_tAsyncThread (t : thread) (s : state) : state :=
  mk_state (_bStopThread s) (_tMutex s) (_eLogLevel s) t (_tFileStream s)
    (_eConsoleColorThreshold s) (_LogQueue s) (cout s) (disk s) (caller s).

Definition set_tFileStream (f : option string) (s : state) : state :=
  mk_state (_bStopThread s) (_tMutex s) (_eLogLevel s) (_tAsyncThread s) f
    (_eConsoleColorThreshold s) (_LogQueue s) (cout s) (disk s) (caller s).

Definition set_LogQueue (q : list LogEntry) (s : state) : state :=
  mk_state (_bStopThread s) (_tMutex s) (_eLogLevel s) (_tAsyncThread s)
    (_tFileStream s) (_eConsoleColorThreshold s) q (cout s) (disk s) (caller s).

Definition set_cout (out : string) (s : state) : state :=
  mk_state (_bStopThread s) (_tMutex s) (_eLogLevel s) (_tAsyncThread s)
    (_tFileStream s) (_eConsoleColorThreshold s) (_LogQueue s) out (disk s)
    (caller s).

Definition set_disk (d : files) (s : state) : state :=
  mk_state (_bStopThread s) (_tMutex s) (_eLogLevel s) (_tAsyncThread s)
    (_tFileStream s) (_eConsoleColorThreshold s) (_LogQueue s) (cout s) d
    (caller s).

Definition set_caller (c : caller_pc) (s : state) : state :=
  mk_state (_bStopThread s) (_tMutex s) (_eLogLevel s) (_tAsyncThread s)
    (_tFileStream s) (_eConsoleColorThreshold s) (_LogQueue s) (cout s)
    (disk s) c.

(** [Logger()]: the member initialisers of the constructor and of the
    class, in a program whose console shows [out] and whose files are [d]. *)
Definition Logger_new (out : string) (d : files) : state :=
  {| _bStopThread := true;
     _tMutex := None;
     _eLogLevel := INFO;
     _tAsyncThread := not_a_thread;
     _tFileStream := None;
     _eConsoleColorThreshold := WARN;
     _LogQueue := [];
     cout := out;
     disk := d;
     caller := Idle |}.

(** What a call of a public member does to its caller. *)
Inductive outcome : Type :=
| Return (s : state)            (* the call returns *)
| Throw (e : exn) (s : state)   (* the call exits by the exception [e] *)
| Suspend (s : state)           (* the call is parked inside a wait or join *)
| WouldBlock                    (* the mutex is taken: the call cannot start *)
| Terminate.                    (* std::terminate() *)

(** ** Synchronisation primitives *)

(** [std::lock_guard guard(_tMutex); body]: the caller's critical sections
    contain no blocking operation, so each runs as one step once the mutex
    is free. *)
Definition lock_guard (body : state -> state) (s : state) : option state :=
  match _tMutex s with
  | Some _ => None
  | None => Some (set_tMutex None (body (set_tMutex (Some Caller) s)))
  end.

(** [_tLogQueueCondition.notify_one()]: the only thread that can be
    waiting while the caller runs is the consumer; once notified it has to
    take the mutex again. *)
Definition notify_one (s : state) : state :=
  match _tAsyncThread s with
  | running Asleep => set_tAsyncThread (running AtLock) s
  | _ => s
  end.

(** ** Public members of [Logger] *)

Definition _setLogLevel (level : LogLevel) (s : state) : state :=
  set_eLogLevel level s.

(** [_setLogFile].  Whether the operating system opens [filename] for
    appending is the input [opens]; a failure is ignored by the code. *)
Definition _setLogFile (filename : string) (opens : bool) (s : state)
  : option state :=
  lock_guard (fun s =>
    let s := match _tFileStream s with
             | Some _ => set_tFileStream None s     (* close() *)
             | None => s
             end in
    if opens then set_tFileStream (Some filename) s else s) s.

Definition init (level : LogLevel) (filename : string) (opens : bool)
  (s : state) : outcome :=
  let s := _setLogLevel level s in
  match _setLogFile filename opens s with
  | None => WouldBlock
  | Some s =>
      let s := set_bStopThread false s in
      (* assigning to a joinable std::thread terminates the program *)
      match _tAsyncThread s with
      | not_a_thread => Return (set_tAsyncThread (running AtOuterTest) s)
      | running _ => Terminate
      end
  end.

Definition log (level : LogLevel) (message file func : string) (line : Z)
  (s : state) : outcome :=
  if _bStopThread s then
    Throw (LogException "Logger has not been initialized") s
  else if LogLevel_ge level (_eLogLevel s) then
    match lock_guard (fun s =>
            let s := set_LogQueue
                       (_LogQueue s ++ [mk_entry level message file func line])
                       s in
            notify_one s) s with
    | Some s => Return s
    | None => WouldBlock
    end
  else Return s.

(** [wait()]: [wait_for] tests the predicate first and returns at once
    when the queue is empty; otherwise it releases the mutex and sleeps. *)
Definition wait (s : state) : outcome :=
  match _tMutex s with
  | Some _ => WouldBlock
  | None =>
      match _LogQueue s with
      | [] => Return s
      | _ :: _ => Suspend (set_caller InWait s)
      end
  end.

(** The sleeping [wait_for] is woken, by the 1 ms timeout or spuriously:
    it takes the mutex again, and returns on a timeout or when the queue is
    empty. *)
Definition wait_wakeup (timed_out : bool) (s : state) : outcome :=
  match _tMutex s with
  | Some _ => WouldBlock
  | None =>
      if timed_out then Return (set_caller Idle s)
      else match _LogQueue s with
           | [] => Return (set_caller Idle s)
           | _ :: _ => Suspend s
           end
  end.

(** [_tAsyncThread.join()] *)
Definition join (s : state) : outcome :=
  match _tAsyncThread s with
  | not_a_thread => Throw system_error s
  | running Finished =>
      Return (set_caller Idle (set_tAsyncThread not_a_thread s))
  | running _ => Suspend (set_caller InJoin s)
  end.

Definition shutdown (s : state) : outcome :=
  match lock_guard (set_bStopThread true) s with
  | None => WouldBlock
  | Some s => join (notify_one s)
  end.

(** ** The background thread *)

(** [coloredMessage << ConsoleColorSetter(color);] — the temporary is
    inserted into the string stream and destroyed at the end of the
    statement, and its destructor writes to [std::cout]. *)
Definition insert_temporary (color_ : ConsoleColor)
  (p : ostringstream * string) : ostringstream * string :=
  let setter := ConsoleColorSetter_new color_ in
  (fst p << color setter, ConsoleColorSetter_delete setter (snd p)).

Definition append_file (path text_ : string) (d : files) : files :=
  fun p => if (p =? path)%string then d p ++ text_ else d p.

(** The body of the inner loop after [lock.unlock()], up to [lock.lock()]. *)
Definition emit (now : time_point) (tid : Z) (logEntry : LogEntry)
  (s : state) : state :=
  let logMessage :=
    _formatLogMessage now tid (entry_level logEntry) (entry_message logEntry)
      (entry_file logEntry) (entry_func logEntry) (entry_line logEntry) in
  let s := match _tFileStream s with
           | Some path => set_disk (append_file path logMessage (disk s)) s
           | None => s
           end in
  let coloredMessage := (oss_new, cout s) in
  let coloredMessage :=
    match entry_level logEntry with
    | DBUG => insert_temporary GREEN coloredMessage
    | INFO => insert_temporary DEFAULT coloredMessage
    | WARN => insert_temporary YELLOW coloredMessage
    | EROR => insert_temporary RED coloredMessage
    end in
  let coloredMessage :=
    (fst coloredMessage << text logMessage, snd coloredMessage) in
  let coloredMessage := insert_temporary DEFAULT coloredMessage in
  set_cout (snd coloredMessage ++ oss_str (fst coloredMessage)) s.

(** One step of [_processLogQueue] from its current control point; [None]
    when the thread cannot move (no thread, mutex taken, asleep, done). *)
Definition consumer_step (now : time_point) (tid : Z) (s : state)
  : option state :=
  match _tAsyncThread s with
  | not_a_thread => None
  | running pc =>
      match pc with
      | AtOuterTest =>
          Some (set_tAsyncThread
                  (running (if _bStopThread s then Finished else AtLock)) s)
      | AtLock | AtRelock =>
          match _tMutex s with
          | Some _ => None
          | None =>
              Some (set_tAsyncThread
                      (running (match pc with
                                | AtLock => AtWait
                                | _ => AtInnerTest
                                end))
                      (set_tMutex (Some Consumer) s))
          end
      | AtWait =>
          if _bStopThread s || negb (match _LogQueue s with
                                     | [] => true
                                     | _ :: _ => false
                                     end)
          then Some (set_tAsyncThread (running AtInnerTest) s)
          else Some (set_tAsyncThread (running Asleep) (set_tMutex None s))
      | Asleep => None
      | AtInnerTest =>
          match _LogQueue s with
          | [] =>
              (* the unique_lock is destroyed at the end of the outer body *)
              Some (set_tAsyncThread (running AtOuterTest) (set_tMutex None s))
          | logEntry :: rest =>
              Some (set_tAsyncThread (running (AtEmit logEntry))
                      (set_tMutex None (set_LogQueue rest s)))
          end
      | AtEmit logEntry =>
          Some (set_tAsyncThread (running AtRelock) (emit now tid logEntry s))
      | Finished => None
      end
  end.

(** A condition variable may wake its waiter without a notification. *)
Definition spurious_wakeup (s : state) : option state :=
  match _tAsyncThread s with
  | running Asleep => Some (set_tAsyncThread (running AtLock) s)
  | _ => None
  end.

(** ** Executions

    The calling thread issues its calls one after the other; the consumer
    thread moves between them, one control point at a time.  The values
    that the operating system supplies travel on the labels. *)
Inductive label : Type :=
| Call_init (level : LogLevel) (filename : string) (opens : bool)
| Call_log (level : LogLevel) (message file func : string) (line : Z)
| Call_wait
| Wait_wakeup (timed_out : bool)
| Call_shutdown
| Join_return
| Consumer_step (now : time_point) (tid : Z)
| Spurious_wakeup.

(** After a call: the state in which the program goes on.  An exception is
    the caller's to handle. *)
Definition resume (o : outcome) : option state :=
  match o with
  | Return s | Throw _ s | Suspend s => Some s
  | WouldBlock | Terminate => None
  end.

Definition step (l : label) (s : state) : option state :=
  match l with
  | Call_init level filename opens =>
      match caller s with
      | Idle => resume (init level filename opens s)
      | _ => None
      end
  | Call_log level message file func line =>
      match caller s with
      | Idle => resume (log level message file func line s)
      | _ => None
      end
  | Call_wait =>
      match caller s with Idle => resume (wait s) | _ => None end
  | Wait_wakeup timed_out =>
      match caller s with
      | InWait => resume (wait_wakeup timed_out s)
      | _ => None
      end
  | Call_shutdown =>
      match caller s with Idle => resume (shutdown s) | _ => None end
  | Join_return =>
      match caller s with
      | InJoin =>
          match join s with
          | Return s' => Some s'
          | _ => None
          end
      | _ => None
      end
  | Consumer_step now tid => consumer_step now tid s
  | Spurious_wakeup => spurious_wakeup s
  end.

Fixpoint run (ls : list label) (s : state) : option state :=
  match ls with
  | [] => Some s
  | l :: ls' =>
      match step l s with
      | Some s' => run ls' s'
      | None => None
      end
  end.

Definition reachable (s : state) : Prop :=
  exists out d ls, run ls (Logger_new out d) = Some s.

Definition is_consumer_label (l : label) : bool :=
  match l with
  | Consumer_step _ _ | Spurious_wakeup => true
  | _ => false
  end.

Definition is_init (l : label) : bool :=
  match l with Call_init _ _ _ => true | _ => false end.

(** ** Invariants of executions *)

(** The mutex is held exactly while the consumer is between taking it and
    releasing it; the caller never holds it across steps. *)
Definition mutex_ok (s : state) : bool :=
  match _tMutex s, _tAsyncThread s with
  | None, running (AtWait | AtInnerTest) => false
  | None, _ => true
  | Some Consumer, running (AtWait | AtInnerTest) => true
  | Some _, _ => false
  end.

(** A caller parked in [join] has set the stop flag and joins a thread
    that exists. *)
Definition join_ok (s : state) : bool :=
  match caller s with
  | InJoin => _bStopThread s && joinable (_tAsyncThread s)
  | _ => true
  end.

Definition inv (s : state) : bool := mutex_ok s && join_ok s.

(** ** Vocabulary of the properties *)

Definition is_digit (c : ascii) : bool :=
  let n := nat_of_ascii c in (48 <=? n)%nat && (n <=? 57)%nat.

(** [matches pat s]: [s] has the shape [pat], where the letter [d] of the
    pattern stands for one decimal digit and every other character for
    itself. *)
Fixpoint matches (pat s : string) : bool :=
  match pat, s with
  | EmptyString, EmptyString => true
  | String p pat', String c s' =>
      (if (p =? "d")%char then is_digit c else (p =? c)%char)
      && matches pat' s'
  | _, _ => false
  end.

(** The time stamp that [_formatLogMessage] puts between the first pair of
    brackets. *)
Definition timestamp (now : time_point) : string :=
  let t := local now in
  dec (tm_year t + 1900) ++ "-" ++ two_digits (tm_mon t + 1)
  ++ "-" ++ two_digits (tm_mday t)
  ++ " " ++ two_digits (tm_hour t)
  ++ ":" ++ two_digits (tm_min t)
  ++ ":" ++ two_digits (tm_sec t)
  ++ "." ++ pad "0"%char 3 (dec (Z.rem (since_epoch_ms now) 1000)).

(** A clock reading of the years 1000 to 9999 with every field in its
    calendar range. *)
Definition calendar_time (now : time_point) : Prop :=
  0 <= since_epoch_ms now /\
  -900 <= tm_year (local now) <= 8099 /\
  0 <= tm_mon (local now) <= 11 /\
  1 <= tm_mday (local now) <= 31 /\
  0 <= tm_hour (local now) <= 23 /\
  0 <= tm_min (local now) <= 59 /\
  0 <= tm_sec (local now) <= 60.

Definition no_slash (s : string) : bool :=
  forallb (fun c => negb (is_slash c)) (list_ascii_of_string s).

(** The path split at every forward and backward slash, following the
    wording of the specification of the formatter. *)
Fixpoint segments (path : string) : list string :=
  match path with
  | EmptyString => [""]
  | String c rest =>
      if is_slash c then "" :: segments rest
      else match segments rest with
           | seg :: more => String c seg :: more
           | [] => [String c ""]
           end
  end.

Definition final_segment (path : string) : string := last (segments path) "".

Definition ends_with_slash (s : string) : Prop :=
  exists front c, s = front ++ String c "" /\ is_slash c = true.

(** The line layout as the specification documents it:
    [[YYYY-MM-DD HH:MM:SS.mmm] [LEVEL] [pid/tid]: message
    (basename:function:line)]. *)
Definition documented_layout (now : time_point) (tid : Z) (level : LogLevel)
  (message file func : string) (line : Z) : string :=
  "[" ++ timestamp now ++ "] [" ++ _logLevelToString level ++ "] ["
  ++ dec tid ++ "]: " ++ message
  ++ " (" ++ final_segment file ++ ":" ++ func ++ ":" ++ dec line ++ ")".

(** The colour the specification assigns to each level, and the escape
    sequence that selects a colour on the console. *)
Definition level_color (level : LogLevel) : ConsoleColor :=
  match level with
  | DBUG => GREEN
  | INFO => DEFAULT
  | WARN => YELLOW
  | EROR => RED
  end.

Definition escape (c : ConsoleColor) : string :=
  String ESC "[" ++ dec (ConsoleColor_value c) ++ "m".

Definition reset : string := String ESC "[0m".

(** The reading of the batch contract of the queue on this model: when a
    step of the consumer gives the mutex back, nothing is left queued. *)
Definition dequeues_whole_batch : Prop :=
  forall s now tid s',
    reachable s ->
    consumer_step now tid s = Some s' ->
    _tMutex s = Some Consumer ->
    _tMutex s' = None ->
    _LogQueue s' = [].

(** The frame contract of [wait()] read between call and return: while the
    caller is inside [wait()] only the consumer thread moves. *)
Definition wait_returns_in_the_state_of_the_call : Prop :=
  forall s cs timed_out s',
    reachable s ->
    forallb is_consumer_label cs = true ->
    run (Call_wait :: cs ++ [Wait_wakeup timed_out]) s = Some s' ->
    caller s' = Idle ->
    _bStopThread s' = _bStopThread s /\
    _eLogLevel s' = _eLogLevel s /\
    _tFileStream s' = _tFileStream s /\
    (forall path, disk s' path = disk s path) /\
    _LogQueue s' = _LogQueue s.

(** The contract of a repeated [shutdown()]: in the state a completed
    [shutdown()] leaves, the next one exits by a [LogException]. *)
Definition second_shutdown_raises_LogException : Prop :=
  forall s s',
    reachable s ->
    step Join_return s = Some s' ->
    exists message s'', shutdown s' = Throw (LogException message) s''.

(** ** Sample data *)

Definition sample_time : time_point :=
  {| since_epoch_ms := 1719050400500;
     local := {| tm_year := 124; tm_mon := 5; tm_mday := 22;
                 tm_hour := 10; tm_min := 0; tm_sec := 0 |} |}.

Definition no_files : files := fun _ => "".

Definition first_entry : LogEntry :=
  mk_entry INFO "one" "/src/main.cpp" "main" 10.

Definition second_entry : LogEntry :=
  mk_entry WARN "two" "/src/main.cpp" "main" 11.

Definition Call_entry (e : LogEntry) : label :=
  Call_log (entry_level e) (entry_message e) (entry_file e) (entry_func e)
    (entry_line e).

Definition tick : label := Consumer_step sample_time 7.

(** [shutdown()] is requested before the new thread has evaluated its loop
    condition for the first time. *)
Definition early_shutdown : list label :=
  [Call_init DBUG "app.log" true; Call_entry first_entry;
   Call_shutdown; tick; Join_return].

(** The consumer writes the first record and is back at its loop condition
    when the second record and [shutdown()] arrive. *)
Definition late_record : list label :=
  [Call_init DBUG "app.log" true; Call_entry first_entry;
   tick; tick; tick; tick; tick; tick; tick;
   Call_entry second_entry; Call_shutdown; tick; Join_return].

(** Two records are queued when the consumer takes the mutex. *)
Definition two_queued : list label :=
  [Call_init DBUG "app.log" true; Call_entry first_entry;
   Call_entry second_entry; tick; tick; tick].

(** The caller waits while one record is queued; the consumer writes it
    before the timeout of the wait. *)
Definition drained_during_wait : list label :=
  [Call_init DBUG "app.log" true; Call_entry first_entry].

(** A complete start and stop. *)
Definition start_stop : list label :=
  [Call_init DBUG "app.log" true; Call_shutdown; tick].

(** The state an execution ends in (the start state, should the execution
    not be possible). *)
Definition after (ls : list label) (s : state) : state :=
  match run ls s with
  | Some s' => s'
  | None => s
  end.

(** What a move of the consumer thread leaves alone, and what it may do to
    the queue and to the files. *)
Definition consumer_may (s s' : state) : Prop :=
  _bStopThread s' = _bStopThread s /\
  _eLogLevel s' = _eLogLevel s /\
  _tFileStream s' = _tFileStream s /\
  (exists done, _LogQueue s = done ++ _LogQueue s')%list /\
  (forall path, exists txt, disk s' path = disk s path ++ txt).

(** ** Histories of an execution

    What went into the logger and what came out of it along an execution,
    read off the labels and the states they were taken in. *)

(** The record the consumer has taken from the queue and not yet written. *)
Definition inflight (s : state) : list LogEntry :=
  match _tAsyncThread s with
  | running (AtEmit logEntry) => [logEntry]
  | _ => []
  end.

(** The record of a [log] call made with the stop flag clear, at or above
    the threshold in force. *)
Definition accepted_by (l : label) (s : state) : list LogEntry :=
  match l with
  | Call_log level message file func line =>
      if negb (_bStopThread s) && LogLevel_ge level (_eLogLevel s)
      then [mk_entry level message file func line]
      else []
  | _ => []
  end.

(** One execution of the body of the inner loop: the record, the clock
    reading and thread id it was formatted with, and the file stream it
    found. *)
Record written : Type := mk_written {
  w_now : time_point;
  w_tid : Z;
  w_stream : option string;
  w_entry : LogEntry
}.

Definition written_by (l : label) (s : state) : list written :=
  match l, _tAsyncThread s with
  | Consumer_step now tid, running (AtEmit logEntry) =>
      [mk_written now tid (_tFileStream s) logEntry]
  | _, _ => []
  end.

Fixpoint accepted (ls : list label) (s : state) : list LogEntry :=
  match ls with
  | [] => []
  | l :: ls' =>
      accepted_by l s ++
      match step l s with
      | Some s' => accepted ls' s'
      | None => []
      end
  end.

Fixpoint writes (ls : list label) (s : state) : list written :=
  match ls with
  | [] => []
  | l :: ls' =>
      written_by l s ++
      match step l s with
      | Some s' => writes ls' s'
      | None => []
      end
  end.

Definition line_of (w : written) : string :=
  _formatLogMessage (w_now w) (w_tid w) (entry_level (w_entry w))
    (entry_message (w_entry w)) (entry_file (w_entry w))
    (entry_func (w_entry w)) (entry_line (w_entry w)).

Definition console_block (w : written) : string :=
  reset ++ reset ++ escape (level_color (entry_level (w_entry w)))
  ++ line_of w ++ reset.

Fixpoint flatten (l : list string) : string :=
  match l with
  | [] => ""
  | x :: l' => x ++ flatten l'
  end.

(** The write found the file stream open on [path]. *)
Definition into (path : string) (w : written) : bool :=
  match w_stream w with
  | Some p => (path =? p)%string
  | None => false
  end.

(** A label that opens no file: anything but an [init] whose open
    succeeds. *)
Definition opens_nothing (l : label) : bool :=
  match l with
  | Call_init _ _ opens => negb opens
  | _ => true
  end.

(** The file cannot be opened; one record is logged and written. *)
Definition console_only : list label :=
  [Call_init DBUG "app.log" false; Call_entry first_entry;
   tick; tick; tick; tick; tick].

(** ** More invariants, and the way to the end of the thread *)

(** The consumer sleeps in its wait only while there is nothing to do:
    the stop flag is clear and the queue is empty. *)
Definition sleep_ok (s : state) : bool :=
  match _tAsyncThread s with
  | running Asleep =>
      negb (_bStopThread s)
      && match _LogQueue s with [] => true | _ :: _ => false end
  | _ => true
  end.

(** While the stop flag is clear the consumer thread exists. *)
Definition running_ok (s : state) : bool :=
  _bStopThread s || joinable (_tAsyncThread s).

Definition inv2 (s : state) : bool := inv s && sleep_ok s && running_ok s.

(** The steps [_processLogQueue] still takes once the stop flag is set. *)
Definition steps_to_finish (s : state) : nat :=
  let n := length (_LogQueue s) in
  match _tAsyncThread s with
  | running AtOuterTest => 1
  | running AtLock => 3 * n + 4
  | running AtWait => 3 * n + 3
  | running AtInnerTest => 3 * n + 2
  | running (AtEmit _) => 3 * n + 4
  | running AtRelock => 3 * n + 3
  | running Asleep | running Finished | not_a_thread => 0
  end%nat.

(** The records the thread leaves in the queue when it finishes with the
    stop flag set: all of them if it is at the test of the outer loop, none
    otherwise. *)
Definition left_behind (s : state) : list LogEntry :=
  match _tAsyncThread s with
  | running AtOuterTest | running Finished | not_a_thread => _LogQueue s
  | _ => []
  end.

(** Steps of the consumer with the given clock readings and thread ids. *)
Definition ticks (rs : list (time_point * Z)) : list label :=
  map (fun r => Consumer_step (fst r) (snd r)) rs.

Definition at_least (threshold : LogLevel) (logEntry : LogEntry) : Prop :=
  LogLevel_ge (entry_level logEntry) threshold = true.

(** The consumer is writing the first record when [shutdown()] is
    called. *)
Definition busy_consumer : list label :=
  [Call_init DBUG "app.log" true; Call_entry first_entry;
   tick; tick; tick; tick].

(** ** [LogStream] and the [LOG] macros *)

Record LogStream : Type := mk_LogStream {
  _tLevel : LogLevel;
  _strFilePath : string;
  _strFuncName : string;
  _nLine : Z;
  _tStream : ostringstream
}.

Definition LogStream_new (level : LogLevel) (file func : string) (line : Z)
  : LogStream :=
  {| _tLevel := level; _strFilePath := file; _strFuncName := func;
     _nLine := line; _tStream := oss_new |}.

(** A value streamed into a log statement: text or an integer. *)
Inductive value : Type :=
| Text (s : string)
| Number (n : Z).

Definition insert_value (v : value) : inserter :=
  match v with
  | Text s => text s
  | Number n => int n
  end.

Definition shown (v : value) : string :=
  match v with
  | Text s => s
  | Number n => dec n
  end.

(** [LogStream::operator<<] *)
Definition LogStream_insert (v : value) (st : LogStream) : LogStream :=
  {| _tLevel := _tLevel st; _strFilePath := _strFilePath st;
     _strFuncName := _strFuncName st; _nLine := _nLine st;
     _tStream := _tStream st << insert_value v |}.

(** [~LogStream()].  The destructor is declared without an exception
    specification and is therefore [noexcept]: an exception that leaves
    [log] inside it ends in [std::terminate]. *)
Definition LogStream_delete (st : LogStream) (s : state) : outcome :=
  match log (_tLevel st) (oss_str (_tStream st)) (_strFilePath st)
          (_strFuncName st) (_nLine st) s with
  | Throw _ _ => Terminate
  | o => o
  end.

(** The statement [LOG(level) << v1 << ... << vn;] written in [file], in
    [func], at [line]. *)
Definition LOG (level : LogLevel) (file func : string) (line : Z)
  (values : list value) (s : state) : outcome :=
  LogStream_delete
    (fold_left (fun st v => LogStream_insert v st) values
       (LogStream_new level file func line)) s.

(** ** Lines *)

Definition no_LF (s : string) : bool :=
  forallb (fun c => negb (c =? LF)%char) (list_ascii_of_string s).

(** * Properties *)

(** ** Strings *)

Lemma append_nil_r (s : string) : s ++ "" = s.
Proof. induction s as [|c s IH]; simpl; [reflexivity | now rewrite IH]. Qed.

Lemma append_assoc (a b c : string) : (a ++ b) ++ c = a ++ (b ++ c).
Proof. induction a as [|x a IH]; simpl; [reflexivity | now rewrite IH]. Qed.

Lemma pad_zero_width (fill : ascii) (s : string) : pad fill 0 s = s.
Proof. reflexivity. Qed.

Lemma no_slash_cons (c : ascii) (s : string) :
  no_slash (String c s) = negb (is_slash c) && no_slash s.
Proof. reflexivity. Qed.

(** ** [_extractFilename] *)

Lemma segments_not_nil (path : string) : segments path <> [].
Proof.
  destruct path as [|c rest]; simpl; [discriminate|].
  destruct (is_slash c); [discriminate|].
  destruct (segments rest); discriminate.
Qed.

Lemma segments_no_slash (path : string) :
  no_slash path = true -> segments path = [path].
Proof.
  induction path as [|c rest IH]; simpl; [reflexivity|].
  rewrite no_slash_cons. intros H. apply andb_prop in H as [Hc Hr].
  apply negb_true_iff in Hc. rewrite Hc, (IH Hr). reflexivity.
Qed.

Lemma segments_slash (path : string) :
  no_slash path = false ->
  exists seg next more, segments path = seg :: next :: more.
Proof.
  induction path as [|c rest IH]; simpl; [discriminate|].
  rewrite no_slash_cons. destruct (is_slash c) eqn:Hc; simpl.
  - intros _. destruct (segments rest) as [|seg more] eqn:Hs.
    + now destruct (segments_not_nil rest).
    + now exists "", seg, more.
  - intros H. destruct (IH H) as (seg & next & more & ->).
    now exists (String c seg), next, more.
Qed.

Lemma final_segment_cons (c : ascii) (rest : string) :
  final_segment (String c rest) =
    if is_slash c then final_segment rest
    else if no_slash rest then String c rest
    else final_segment rest.
Proof.
  unfold final_segment. simpl. destruct (is_slash c).
  - destruct (segments rest) eqn:Hs; [now destruct (segments_not_nil rest)|].
    reflexivity.
  - destruct (no_slash rest) eqn:Hn.
    + now rewrite (segments_no_slash _ Hn).
    + destruct (segments_slash _ Hn) as (seg & next & more & ->). reflexivity.
Qed.

Lemma final_segment_no_slash (path : string) :
  no_slash path = true -> final_segment path = path.
Proof.
  intros H. unfold final_segment. now rewrite (segments_no_slash _ H).
Qed.

Lemma extractFilename_loop_spec (ptr filename : string) :
  _extractFilename_loop ptr filename =
    if no_slash ptr then filename else final_segment ptr.
Proof.
  revert filename. induction ptr as [|c rest IH]; intros filename; simpl.
  - reflexivity.
  - rewrite IH, no_slash_cons, final_segment_cons.
    destruct (is_slash c); simpl.
    + destruct (no_slash rest) eqn:Hn; [|reflexivity].
      symmetry. now apply final_segment_no_slash.
    + now destruct (no_slash rest).
Qed.

Lemma final_segment_has_no_slash (path : string) :
  no_slash (final_segment path) = true.
Proof.
  induction path as [|c rest IH]; [reflexivity|].
  rewrite final_segment_cons.
  destruct (is_slash c) eqn:Hc; [assumption|].
  destruct (no_slash rest) eqn:Hn; [|assumption].
  rewrite no_slash_cons, Hc, Hn. reflexivity.
Qed.

Lemma final_segment_is_suffix (path : string) :
  exists dir, path = dir ++ final_segment path /\
              (dir = "" \/ ends_with_slash dir).
Proof.
  induction path as [|c rest (dir & Hdir & Hend)].
  - exists "". split; [reflexivity | now left].
  - rewrite final_segment_cons. destruct (is_slash c) eqn:Hc.
    + exists (String c dir). split; [simpl; now rewrite <- Hdir|].
      right. destruct Hend as [-> | (front & c' & -> & Hc')].
      * now exists "", c.
      * now exists (String c front), c'.
    + destruct (no_slash rest) eqn:Hn.
      * exists "". split; [reflexivity | now left].
      * exists (String c dir). split; [simpl; now rewrite <- Hdir|].
        right. destruct Hend as [-> | (front & c' & -> & Hc')].
        -- simpl in Hdir. rewrite Hdir, final_segment_has_no_slash in Hn.
           discriminate.
        -- now exists (String c front), c'.
Qed.

(** C6.  For every origin path, [_extractFilename] returns the final
    segment of the path split on both kinds of slash: the path is some
    directory part, empty or ending in a slash, followed by the result; the
    result holds no slash; and a path without slashes is returned as it
    is. *)
Theorem extractFilename_final_segment (filePath : string) :
  _extractFilename filePath = final_segment filePath /\
  (exists dir, filePath = dir ++ _extractFilename filePath /\
               (dir = "" \/ ends_with_slash dir)) /\
  no_slash (_extractFilename filePath) = true /\
  (no_slash filePath = true -> _extractFilename filePath = filePath).
Proof.
  assert (E : _extractFilename filePath = final_segment filePath).
  { unfold _extractFilename. rewrite extractFilename_loop_spec.
    destruct (no_slash filePath) eqn:Hn; [|reflexivity].
    symmetry. now apply final_segment_no_slash. }
  rewrite E. repeat split.
  - apply final_segment_is_suffix.
  - apply final_segment_has_no_slash.
  - apply final_segment_no_slash.
Qed.

Lemma extractFilename_final_segment_witness :
  _extractFilename "/a/b\c.cpp" = "c.cpp" /\
  _extractFilename "main.cpp" = "main.cpp".
Proof.
  split.
  - reflexivity.
  - apply (extractFilename_final_segment "main.cpp"). reflexivity.
Defined.

(** ** [_formatLogMessage] *)

Lemma matches_app (p1 p2 s1 s2 : string) :
  matches p1 s1 = true -> matches p2 s2 = true ->
  matches (p1 ++ p2) (s1 ++ s2) = true.
Proof.
  revert s1. induction p1 as [|p p1 IH]; intros [|c s1]; simpl;
    try discriminate; [trivial|].
  intros H1 H2. apply andb_prop in H1 as [Hc Hs].
  now rewrite Hc, (IH _ Hs H2).
Qed.

Lemma checked_range (f : Z -> bool) (lo hi : Z) :
  forallb f (map (fun k => lo + Z.of_nat k)
               (seq 0 (Z.to_nat (hi - lo + 1)))) = true ->
  forall z, lo <= z <= hi -> f z = true.
Proof.
  intros H z Hz. rewrite forallb_forall in H. apply H.
  apply in_map_iff. exists (Z.to_nat (z - lo)). split; [lia|].
  apply in_seq. lia.
Qed.

Lemma year_shape (y : Z) : 1000 <= y <= 9999 -> matches "dddd" (dec y) = true.
Proof.
  revert y.
  refine (checked_range (fun y => matches "dddd" (dec y)) 1000 9999 _).
  vm_compute. reflexivity.
Qed.

Lemma two_digits_shape (n : Z) :
  0 <= n <= 99 -> matches "dd" (two_digits n) = true.
Proof.
  revert n.
  refine (checked_range (fun n => matches "dd" (two_digits n)) 0 99 _).
  vm_compute. reflexivity.
Qed.

Lemma millis_shape (n : Z) :
  0 <= n <= 999 -> matches "ddd" (pad "0"%char 3 (dec n)) = true.
Proof.
  revert n.
  refine (checked_range (fun n => matches "ddd" (pad "0"%char 3 (dec n)))
            0 999 _).
  vm_compute. reflexivity.
Qed.

Lemma timestamp_shape (now : time_point) :
  calendar_time now ->
  matches "dddd-dd-dd dd:dd:dd.ddd" (timestamp now) = true.
Proof.
  intros (Hms & Hy & Hmo & Hd & Hh & Hmi & Hs). unfold timestamp.
  change "dddd-dd-dd dd:dd:dd.ddd"
    with ("dddd" ++ "-" ++ "dd" ++ "-" ++ "dd" ++ " " ++ "dd" ++ ":" ++ "dd"
          ++ ":" ++ "dd" ++ "." ++ "ddd").
  pose proof (Z.rem_bound_pos (since_epoch_ms now) 1000 Hms).
  repeat first
    [ apply year_shape; lia
    | apply two_digits_shape; lia
    | apply millis_shape; lia
    | apply matches_app; [|]
    | exact (eq_refl true) ].
Qed.

Lemma formatLogMessage_eq (now : time_point) (tid : Z) (level : LogLevel)
  (message file func : string) (line : Z) :
  _formatLogMessage now tid level message file func line =
    "[" ++ timestamp now ++ "] [" ++ _logLevelToString level ++ "]["
    ++ dec tid ++ "]: " ++ message
    ++ " (" ++ _extractFilename file ++ " " ++ func ++ ":" ++ dec line ++ ")"
    ++ newline.
Proof.
  cbv beta iota zeta delta
    [_formatLogMessage timestamp int text put_time setfill setw endl oss_new
     oss_str oss_fill oss_width].
  rewrite !pad_zero_width.
  repeat (progress (rewrite ?append_assoc; cbn [append])).
  reflexivity.
Qed.

(** C5, as the code has it.  The formatted text is a function of the
    record, the clock reading and the thread id, and it is laid out as
    [[YYYY-MM-DD HH:MM:SS.mmm] [LEVEL][tid]: message (basename function:line)]
    followed by a newline: no blank separates the level from the thread id,
    and a blank, not a colon, separates the basename from the function.  For
    a clock reading of the years 1000 to 9999 the time stamp has the shape
    [dddd-dd-dd dd:dd:dd.ddd].  For level Warn, message "disk low", file
    "/a/b/c.cpp", function "poll", line 42 at 2024-06-22 10:00:00.500 the
    text begins with [[2024-06-22 10:00:00.500] [WARN]] and ends with
    [(c.cpp poll:42)] and the newline. *)
Theorem formatLogMessage_layout (now : time_point) (tid : Z)
  (level : LogLevel) (message file func : string) (line : Z) :
  _formatLogMessage now tid level message file func line =
    "[" ++ timestamp now ++ "] [" ++ _logLevelToString level ++ "]["
    ++ dec tid ++ "]: " ++ message
    ++ " (" ++ _extractFilename file ++ " " ++ func ++ ":" ++ dec line ++ ")"
    ++ newline /\
  (calendar_time now ->
   matches "dddd-dd-dd dd:dd:dd.ddd" (timestamp now) = true) /\
  prefix "[2024-06-22 10:00:00.500] [WARN]"
    (_formatLogMessage sample_time tid WARN "disk low" "/a/b/c.cpp" "poll" 42)
    = true /\
  exists front,
    _formatLogMessage sample_time tid WARN "disk low" "/a/b/c.cpp" "poll" 42
    = front ++ "(c.cpp poll:42)" ++ newline.
Proof.
  split; [apply formatLogMessage_eq|].
  split; [apply timestamp_shape|].
  rewrite formatLogMessage_eq. split.
  - reflexivity.
  - exists ("[2024-06-22 10:00:00.500] [WARN][" ++ dec tid ++ "]: disk low ").
    rewrite !append_assoc. reflexivity.
Qed.

Lemma formatLogMessage_layout_witness :
  calendar_time sample_time /\
  matches "dddd-dd-dd dd:dd:dd.ddd" (timestamp sample_time) = true.
Proof.
  assert (H : calendar_time sample_time).
  { unfold calendar_time, sample_time; simpl; lia. }
  split; [exact H|].
  exact (proj1 (proj2 (formatLogMessage_layout sample_time 7 WARN "disk low"
                         "/a/b/c.cpp" "poll" 42)) H).
Defined.

(** C5, as the specification words it, fails on the sample record: the
    formatted text is not the documented layout, with or without the
    newline that ends the line. *)
Lemma formatLogMessage_not_documented_layout :
  ~ (forall now tid level message file func line,
       _formatLogMessage now tid level message file func line =
         documented_layout now tid level message file func line \/
       _formatLogMessage now tid level message file func line =
         documented_layout now tid level message file func line ++ newline).
Proof.
  intros H.
  destruct (H sample_time 7 WARN "disk low" "/a/b/c.cpp" "poll" 42) as [E | E];
    vm_compute in E; discriminate E.
Qed.

(** ** The console copy *)

Lemma escape_color_code (c : ConsoleColor) :
  _strColorCode (ConsoleColorSetter_new c) = escape c.
Proof. destruct c; reflexivity. Qed.

(** C7.  For every record the consumer processes, what the step writes to
    the console ends with the colour escape of the record's level (green
    for Debug, the default for Info, yellow for Warn, red for Error), the
    formatted line, and the reset escape right after the line; before them
    the step writes nothing but reset escapes. *)
Theorem emit_console_copy (now : time_point) (tid : Z) (logEntry : LogEntry)
  (s : state) :
  cout (emit now tid logEntry s) =
    cout s ++ reset ++ reset
    ++ escape (level_color (entry_level logEntry))
    ++ _formatLogMessage now tid (entry_level logEntry)
         (entry_message logEntry) (entry_file logEntry) (entry_func logEntry)
         (entry_line logEntry)
    ++ reset.
Proof.
  cbv beta zeta delta [emit].
  generalize (_formatLogMessage now tid (entry_level logEntry)
                (entry_message logEntry) (entry_file logEntry)
                (entry_func logEntry) (entry_line logEntry)).
  intros logMessage.
  destruct (entry_level logEntry);
    cbv beta iota zeta delta
      [insert_temporary fst snd color text oss_new oss_str oss_fill oss_width
       ConsoleColorSetter_delete _resetColor set_cout cout level_color];
    fold cout; rewrite !escape_color_code, !pad_zero_width;
    destruct (_tFileStream s); cbn [cout set_disk];
    unfold reset;
    repeat (progress (rewrite ?append_assoc; cbn [append]));
    reflexivity.
Qed.
Lemma state_eta (s : state) :
  mk_state (_bStopThread s) (_tMutex s) (_eLogLevel s) (_tAsyncThread s)
    (_tFileStream s) (_eConsoleColorThreshold s) (_LogQueue s) (cout s)
    (disk s) (caller s) = s.
Proof. now destruct s. Qed.

Lemma emit_frame (now : time_point) (tid : Z) (e : LogEntry) (s : state) :
  emit now tid e s =
    set_cout (cout (emit now tid e s)) (set_disk (disk (emit now tid e s)) s).
Proof.
  cbv beta zeta delta [emit].
  generalize (_formatLogMessage now tid (entry_level e) (entry_message e)
                (entry_file e) (entry_func e) (entry_line e)).
  intros logMessage. destruct s as [stop mtx lvl thr [path|] cth q out d cl];
    reflexivity.
Qed.

Lemma emit_disk (now : time_point) (tid : Z) (e : LogEntry) (s : state) :
  disk (emit now tid e s) =
    match _tFileStream s with
    | Some path =>
        append_file path
          (_formatLogMessage now tid (entry_level e) (entry_message e)
             (entry_file e) (entry_func e) (entry_line e)) (disk s)
    | None => disk s
    end.
Proof.
  cbv beta zeta delta [emit].
  generalize (_formatLogMessage now tid (entry_level e) (entry_message e)
                (entry_file e) (entry_func e) (entry_line e)).
  intros logMessage. destruct s as [stop mtx lvl thr [path|] cth q out d cl];
    reflexivity.
Qed.
Arguments emit : simpl never.
Arguments _formatLogMessage : simpl never.

Ltac open_state s :=
  let stop := fresh "stop" in
  let mtx := fresh "mtx" in
  let lvl := fresh "lvl" in
  let thr := fresh "thr" in
  let fs := fresh "fs" in
  let cth := fresh "cth" in
  let q := fresh "q" in
  let out := fresh "out" in
  let d := fresh "d" in
  let cl := fresh "cl" in
  destruct s as [stop mtx lvl thr fs cth q out d cl].

Ltac unfold_calls :=
  unfold step, resume, init, _setLogFile, _setLogLevel, log, wait,
    wait_wakeup, shutdown, join, lock_guard, notify_one, consumer_step,
    spurious_wakeup in *.

(** Case analysis on every test that an operation performs. *)
Ltac split_tests :=
  repeat (cbn in *; match goal with
  | H : _ = _ |- _ => discriminate H
  | H : Some _ = Some _ |- _ => first [injection H as H; try subst | clear H]
  | H : Return _ = Return _ |- _ =>
      first [injection H as H; try subst | clear H]
  | H : Throw _ _ = Throw _ _ |- _ =>
      first [injection H as ? H; try subst | clear H]
  | H : Suspend _ = Suspend _ |- _ =>
      first [injection H as H; try subst | clear H]
  | H : context [match ?x with _ => _ end] |- _ => destruct x eqn:?
  | H : context [if ?x then _ else _] |- _ => destruct x eqn:?
  end).

Lemma inv_Logger_new (out : string) (d : files) : inv (Logger_new out d) = true.
Proof. reflexivity. Qed.

Lemma consumer_step_inv (now : time_point) (tid : Z) (s s' : state) :
  inv s = true -> consumer_step now tid s = Some s' -> inv s' = true.
Proof.
  intros I H. unfold consumer_step in H.
  destruct (_tAsyncThread s) as [|pc] eqn:Ht; [discriminate|].
  destruct pc; try discriminate.
  all: try rewrite (emit_frame now tid logEntry s) in H.
  all: open_state s; unfold inv, mutex_ok, join_ok in *; cbn in *; subst.
  all: split_tests; try assumption; try reflexivity.
  all: destruct cl, stop; cbn in *; try assumption; try reflexivity;
    try discriminate.
Qed.

Lemma step_inv (l : label) (s s' : state) :
  inv s = true -> step l s = Some s' -> inv s' = true.
Proof.
  intros I H. destruct l; cbn [step] in H;
    [ | | | | | | now apply (consumer_step_inv now tid s) | ].
  all: open_state s; unfold_calls; unfold inv, mutex_ok, join_ok in *;
    split_tests; try assumption; try reflexivity.
Qed.

Lemma run_inv (ls : list label) (s s' : state) :
  inv s = true -> run ls s = Some s' -> inv s' = true.
Proof.
  revert s. induction ls as [|l ls IH]; intros s I H; cbn in H.
  - now injection H as <-.
  - destruct (step l s) as [s1|] eqn:Hs; [|discriminate].
    exact (IH s1 (step_inv l s s1 I Hs) H).
Qed.

Lemma reachable_inv (s : state) : reachable s -> inv s = true.
Proof.
  intros (out & d & ls & H). exact (run_inv ls _ s (inv_Logger_new out d) H).
Qed.

Lemma run_app (ls1 ls2 : list label) (s : state) :
  run (ls1 ++ ls2) s =
    match run ls1 s with
    | Some s1 => run ls2 s1
    | None => None
    end.
Proof.
  revert s. induction ls1 as [|l ls1 IH]; intros s; cbn; [reflexivity|].
  destruct (step l s); [apply IH | reflexivity].
Qed.

Lemma reachable_run (ls : list label) (s s' : state) :
  reachable s -> run ls s = Some s' -> reachable s'.
Proof.
  intros (out & d & ls0 & H0) H. exists out, d, (ls0 ++ ls)%list.
  now rewrite run_app, H0.
Qed.


(** ** [log] *)

(** C10.  When [log] exits by an exception, the state it leaves is the
    state it was called in: queue, threshold, stop flag, file stream and
    everything else are untouched. *)
Theorem log_throw_leaves_state (level : LogLevel) (message file func : string)
  (line : Z) (s s' : state) (e : exn) :
  log level message file func line s = Throw e s' -> s' = s.
Proof.
  unfold log. destruct (_bStopThread s).
  - intros H. now injection H as _ <-.
  - destruct (LogLevel_ge level (_eLogLevel s)); [|discriminate].
    destruct (lock_guard _ s); discriminate.
Qed.

Lemma log_throw_leaves_state_witness :
  log INFO "early" "/src/main.cpp" "main" 3 (Logger_new "" no_files) =
    Throw (LogException "Logger has not been initialized")
      (Logger_new "" no_files) /\
  Logger_new "" no_files = Logger_new "" no_files.
Proof.
  assert (H : log INFO "early" "/src/main.cpp" "main" 3 (Logger_new "" no_files)
              = Throw (LogException "Logger has not been initialized")
                  (Logger_new "" no_files)) by reflexivity.
  split; [exact H|].
  exact (log_throw_leaves_state INFO "early" "/src/main.cpp" "main" 3
           (Logger_new "" no_files) (Logger_new "" no_files) _ H).
Defined.

Lemma LogLevel_lt_ge (a b : LogLevel) : LogLevel_ge a b = negb (LogLevel_lt a b).
Proof. now destruct a, b. Qed.

(** C2.  In the Running state (stop flag clear) a record whose level is
    strictly below the threshold is dropped silently: [log] returns, does
    not throw, and leaves the whole state as it was, so that the queue, the
    file and the console of every continuation of the program are those of
    the program without the call.  A record at or above the threshold is
    appended to the queue as soon as the caller gets the mutex; until then
    the call waits, and it does not throw. *)
Theorem log_filters_by_level (level : LogLevel) (message file func : string)
  (line : Z) (s : state) :
  _bStopThread s = false ->
  (LogLevel_lt level (_eLogLevel s) = true ->
     log level message file func line s = Return s /\
     (caller s = Idle ->
      forall ls, run (Call_log level message file func line :: ls) s
                 = run ls s)) /\
  (LogLevel_lt level (_eLogLevel s) = false ->
     (_tMutex s = None ->
      log level message file func line s =
        Return (notify_one
                  (set_LogQueue
                     (_LogQueue s ++ [mk_entry level message file func line])
                     s))) /\
     (_tMutex s <> None ->
      log level message file func line s = WouldBlock)).
Proof.
  intros Hrun. split; intros Hlt.
  - assert (E : log level message file func line s = Return s).
    { unfold log. now rewrite Hrun, LogLevel_lt_ge, Hlt. }
    split; [exact E|]. intros Hc ls. cbn [run step]. now rewrite Hc, E.
  - split; intros Hm; unfold log, lock_guard;
      rewrite Hrun, LogLevel_lt_ge, Hlt; cbn [negb].
    + rewrite Hm. unfold notify_one. open_state s. cbn in *. subst.
      now destruct thr as [|[]].
    + now destruct (_tMutex s).
Qed.

Lemma log_filters_by_level_witness :
  exists s,
    run [Call_init WARN "app.log" true] (Logger_new "" no_files) = Some s /\
    _bStopThread s = false /\
    log INFO "quiet" "/src/main.cpp" "main" 5 s = Return s /\
    (exists s', log EROR "loud" "/src/main.cpp" "main" 6 s = Return s' /\
       _LogQueue s' = [mk_entry EROR "loud" "/src/main.cpp" "main" 6]).
Proof.
  eexists. split; [reflexivity|]. split; [reflexivity|]. split.
  - refine (proj1 (proj1 (log_filters_by_level INFO "quiet" "/src/main.cpp"
                            "main" 5 _ _) _)); reflexivity.
  - eexists. split.
    + refine (proj1 (proj2 (log_filters_by_level EROR "loud" "/src/main.cpp"
                              "main" 6 _ _) _) _); reflexivity.
    + reflexivity.
Defined.

(** ** Outside the Running state *)

Lemma step_keeps_stop_flag (l : label) (s s' : state) :
  is_init l = false -> _bStopThread s = true -> step l s = Some s' ->
  _bStopThread s' = true.
Proof.
  intros Hl Hs H. destruct l; try discriminate Hl; cbn [step] in H.
  6: { unfold consumer_step in H.
       destruct (_tAsyncThread s) as [|pc]; [discriminate|].
       destruct pc; try discriminate;
         try rewrite (emit_frame now tid logEntry s) in H;
         open_state s; split_tests; reflexivity. }
  all: open_state s; unfold_calls; split_tests; reflexivity.
Qed.

Lemma run_keeps_stop_flag (ls : list label) (s s' : state) :
  forallb (fun l => negb (is_init l)) ls = true ->
  _bStopThread s = true -> run ls s = Some s' -> _bStopThread s' = true.
Proof.
  revert s. induction ls as [|l ls IH]; intros s Hls Hs H; cbn in H, Hls.
  - now injection H as <-.
  - apply andb_prop in Hls as [Hl Hls]. apply negb_true_iff in Hl.
    destruct (step l s) as [s1|] eqn:E; [|discriminate].
    exact (IH s1 Hls (step_keeps_stop_flag l s s1 Hl Hs E) H).
Qed.

Lemma shutdown_sets_stop_flag (s s' : state) :
  step Call_shutdown s = Some s' -> _bStopThread s' = true.
Proof.
  intros H. cbn [step] in H. open_state s. unfold_calls. split_tests;
    reflexivity.
Qed.

(** C3.  [log] called before [init] has run, or after [shutdown] has run
    and no [init] since, exits by the [LogException] "Logger has not been
    initialized", whatever the record and its level; the exception leaves
    [log], it is the caller's. *)
Theorem log_outside_running_throws (level : LogLevel)
  (message file func : string) (line : Z) :
  (forall out d ls s,
     forallb (fun l => negb (is_init l)) ls = true ->
     run ls (Logger_new out d) = Some s ->
     log level message file func line s =
       Throw (LogException "Logger has not been initialized") s) /\
  (forall s0 s1 ls s,
     step Call_shutdown s0 = Some s1 ->
     forallb (fun l => negb (is_init l)) ls = true ->
     run ls s1 = Some s ->
     log level message file func line s =
       Throw (LogException "Logger has not been initialized") s).
Proof.
  assert (T : forall s, _bStopThread s = true ->
            log level message file func line s =
              Throw (LogException "Logger has not been initialized") s).
  { intros s Hs. unfold log. now rewrite Hs. }
  split.
  - intros out d ls s Hls H. apply T.
    now apply (run_keeps_stop_flag ls (Logger_new out d)).
  - intros s0 s1 ls s H0 Hls H. apply T.
    apply (run_keeps_stop_flag ls s1); trivial.
    now apply (shutdown_sets_stop_flag s0).
Qed.

Lemma log_outside_running_throws_witness :
  log EROR "early" "/src/main.cpp" "main" 3
    (after [Call_wait] (Logger_new "" no_files)) =
    Throw (LogException "Logger has not been initialized")
      (after [Call_wait] (Logger_new "" no_files)) /\
  log EROR "late" "/src/main.cpp" "main" 9
    (after start_stop (Logger_new "" no_files)) =
    Throw (LogException "Logger has not been initialized")
      (after start_stop (Logger_new "" no_files)).
Proof.
  split.
  - apply (proj1 (log_outside_running_throws EROR "early" "/src/main.cpp"
                    "main" 3) "" no_files [Call_wait]).
    + reflexivity.
    + vm_compute. reflexivity.
  - apply (proj2 (log_outside_running_throws EROR "late" "/src/main.cpp"
                    "main" 9)
             (after [Call_init DBUG "app.log" true] (Logger_new "" no_files))
             (after [Call_init DBUG "app.log" true; Call_shutdown]
                (Logger_new "" no_files))
             [tick]).
    + vm_compute. reflexivity.
    + reflexivity.
    + vm_compute. reflexivity.
Defined.

(** ** [shutdown] *)

Lemma shutdown_never_LogException (s s' : state) (message : string) :
  shutdown s <> Throw (LogException message) s'.
Proof.
  unfold shutdown, join. destruct (lock_guard _ s) as [s1|]; [|discriminate].
  destruct (_tAsyncThread (notify_one s1)) as [|[]]; discriminate.
Qed.

(** C4, as the code has it.  [shutdown()] never exits by a [LogException].
    Called again in the state a completed [shutdown()] leaves, it keeps the
    stop flag set, changes nothing else, and exits by the
    [std::system_error] of [join] on a thread that is no longer joinable. *)
Theorem second_shutdown_raises_system_error (s s' : state) :
  reachable s ->
  step Join_return s = Some s' ->
  shutdown s' = Throw system_error s' /\
  forall message s'', shutdown s' <> Throw (LogException message) s''.
Proof.
  intros R H. split; [|intros; apply shutdown_never_LogException].
  pose proof (reachable_inv s R) as I.
  cbn [step] in H. open_state s. unfold_calls.
  unfold inv, mutex_ok, join_ok in I. split_tests.
  all: match goal with I : ?stop && _ = true |- _ => destruct stop end;
    [reflexivity | discriminate I].
Qed.

Lemma second_shutdown_raises_system_error_witness :
  shutdown (after (start_stop ++ [Join_return]) (Logger_new "" no_files)) =
    Throw system_error
      (after (start_stop ++ [Join_return]) (Logger_new "" no_files)).
Proof.
  apply (second_shutdown_raises_system_error
           (after start_stop (Logger_new "" no_files))).
  - exists "", no_files, start_stop. vm_compute. reflexivity.
  - vm_compute. reflexivity.
Defined.

(** C4, as the specification words it, fails: after a start and a
    completed stop, a second [shutdown()] does not exit by a
    [LogException]. *)
Lemma second_shutdown_not_LogException :
  ~ second_shutdown_raises_LogException.
Proof.
  intros H.
  destruct (H (after start_stop (Logger_new "" no_files))
              (after (start_stop ++ [Join_return]) (Logger_new "" no_files)))
    as (message & s'' & E).
  - exists "", no_files, start_stop. vm_compute. reflexivity.
  - vm_compute. reflexivity.
  - exact (shutdown_never_LogException _ _ _ E).
Qed.

(** ** The consumer and the mutex *)

(** C8, as the code has it.  The consumer takes the records out of the
    queue one at a time: a step that changes the queue removes exactly its
    front record, is made while the consumer holds the mutex, and gives the
    mutex back; the record is formatted and written in a later step, during
    which the mutex is free, so that a [log] call is not kept waiting; and
    no other step of the consumer writes to the console or to a file. *)
Theorem consumer_pops_one_record_per_lock (s s' : state) (now : time_point)
  (tid : Z) :
  reachable s ->
  consumer_step now tid s = Some s' ->
  (_LogQueue s' = _LogQueue s \/
   exists logEntry,
     _LogQueue s = logEntry :: _LogQueue s' /\
     _tMutex s = Some Consumer /\ _tMutex s' = None /\
     _tAsyncThread s' = running (AtEmit logEntry)) /\
  (forall logEntry,
     _tAsyncThread s = running (AtEmit logEntry) ->
     _tMutex s = None /\ _tMutex s' = None /\
     s' = set_tAsyncThread (running AtRelock) (emit now tid logEntry s) /\
     forall level message file func line,
       log level message file func line s <> WouldBlock) /\
  ((forall logEntry, _tAsyncThread s <> running (AtEmit logEntry)) ->
   cout s' = cout s /\ disk s' = disk s).
Proof.
  intros R H. pose proof (reachable_inv s R) as I.
  unfold consumer_step in H.
  destruct (_tAsyncThread s) as [|pc] eqn:Ht; [discriminate|].
  unfold inv, mutex_ok in I. rewrite Ht in I.
  apply andb_prop in I as [I _].
  destruct pc; try discriminate.
  5: { (* AtEmit *)
    injection H as <-. destruct (_tMutex s) as [[]|] eqn:Hm;
      try discriminate I.
    split; [left; now rewrite emit_frame|]. split.
    - intros e He. injection He as <-. repeat split.
      + rewrite emit_frame. exact Hm.
      + intros level message file func line. unfold log, lock_guard.
        rewrite Hm. destruct (_bStopThread s); [discriminate|].
        destruct (LogLevel_ge level (_eLogLevel s)); discriminate.
    - intros N. now destruct (N logEntry). }
  all: split_tests; cbn;
    (split; [ first [ now left | right; eexists; repeat split; eassumption
                    | right; eexists; repeat split; try reflexivity ]
            | split; [intros e He; discriminate He | intros _; now split] ]).
Qed.

Lemma consumer_pops_one_record_per_lock_witness :
  exists logEntry,
    _LogQueue (after two_queued (Logger_new "" no_files)) =
      logEntry :: _LogQueue (after (two_queued ++ [tick])
                               (Logger_new "" no_files)) /\
    _tMutex (after (two_queued ++ [tick]) (Logger_new "" no_files)) = None.
Proof.
  destruct (consumer_pops_one_record_per_lock
              (after two_queued (Logger_new "" no_files))
              (after (two_queued ++ [tick]) (Logger_new "" no_files))
              sample_time 7) as ([E | (e & Hq & _ & Hm & _)] & _).
  - exists "", no_files, two_queued. vm_compute. reflexivity.
  - vm_compute. reflexivity.
  - vm_compute in E. discriminate E.
  - exists e. split; [exact Hq | exact Hm].
Defined.

(** C8, as the specification words it, fails: with two records queued,
    the consumer gives the mutex back after taking the first one, and the
    second one is still in the queue. *)
Lemma consumer_does_not_dequeue_batch : ~ dequeues_whole_batch.
Proof.
  intros H.
  assert (E : _LogQueue (after (two_queued ++ [tick])
                           (Logger_new "" no_files)) = []).
  { apply (H (after two_queued (Logger_new "" no_files)) sample_time 7).
    - exists "", no_files, two_queued. vm_compute. reflexivity.
    - vm_compute. reflexivity.
    - vm_compute. reflexivity.
    - vm_compute. reflexivity. }
  vm_compute in E. discriminate E.
Qed.

(** ** [wait] *)

Lemma append_file_extends (path text_ : string) (d : files) (p : string) :
  exists txt, append_file path text_ d p = d p ++ txt.
Proof.
  unfold append_file. destruct (p =? path)%string.
  - now exists text_.
  - exists "". now rewrite append_nil_r.
Qed.

Ltac same_files :=
  let path := fresh "path" in
  intros path; exists ""; now rewrite append_nil_r.

Ltac frame_of_move :=
  unfold consumer_may; cbn;
  refine (conj eq_refl (conj eq_refl (conj eq_refl (conj _ _))));
  [ first [ now exists [] | now eexists [_]
          | eexists [_]; cbn; eassumption ]
  | same_files ].

Lemma consumer_may_refl (s : state) : consumer_may s s.
Proof. frame_of_move. Qed.

Lemma consumer_may_trans (s1 s2 s3 : state) :
  consumer_may s1 s2 -> consumer_may s2 s3 -> consumer_may s1 s3.
Proof.
  intros (A1 & B1 & C1 & (q1 & E1) & F1) (A2 & B2 & C2 & (q2 & E2) & F2).
  repeat split; try congruence.
  - exists (q1 ++ q2)%list. now rewrite E1, E2, app_assoc.
  - intros path. destruct (F1 path) as (t1 & H1), (F2 path) as (t2 & H2).
    exists (t1 ++ t2). now rewrite H2, H1, append_assoc.
Qed.

Lemma consumer_step_may (now : time_point) (tid : Z) (s s' : state) :
  consumer_step now tid s = Some s' -> consumer_may s s'.
Proof.
  intros H. unfold consumer_step in H.
  destruct (_tAsyncThread s) as [|pc]; [discriminate|].
  destruct pc; try discriminate.
  5: { injection H as <-. unfold consumer_may.
       rewrite emit_frame. cbn.
       refine (conj eq_refl (conj eq_refl (conj eq_refl (conj _ _)))).
       - now exists [].
       - intros path. rewrite emit_disk. destruct (_tFileStream s).
         + apply append_file_extends.
         + exists "". now rewrite append_nil_r. }
  all: split_tests; frame_of_move.
Qed.

Lemma consumer_labels_may (cs : list label) (s s' : state) :
  forallb is_consumer_label cs = true -> run cs s = Some s' ->
  consumer_may s s'.
Proof.
  revert s. induction cs as [|l cs IH]; intros s Hcs H; cbn in H, Hcs.
  - injection H as <-. apply consumer_may_refl.
  - apply andb_prop in Hcs as [Hl Hcs].
    destruct (step l s) as [s1|] eqn:E; [|discriminate].
    apply (consumer_may_trans s s1 s'); [|now apply IH].
    destruct l; try discriminate Hl; cbn [step] in E.
    + now apply (consumer_step_may now tid).
    + unfold spurious_wakeup in E. split_tests. frame_of_move.
Qed.

(** C9, as the code has it.  [wait()] itself changes nothing: entering it
    either returns in the very state of the call or parks the caller, and
    waking it only lets the caller go on.  Between the call and the return
    the stop flag, the threshold and the file stream are the same; the
    consumer thread may take records from the front of the queue and append
    text to the files meanwhile, so at the return the queue is a tail of
    the queue of the call and every file begins with what it held at the
    call. *)
Theorem wait_mutates_nothing (s : state) :
  (wait s = Return s \/ wait s = Suspend (set_caller InWait s) \/
   wait s = WouldBlock) /\
  (forall timed_out,
     wait_wakeup timed_out s = Return (set_caller Idle s) \/
     wait_wakeup timed_out s = Suspend s \/
     wait_wakeup timed_out s = WouldBlock) /\
  (forall cs timed_out s',
     forallb is_consumer_label cs = true ->
     run (Call_wait :: cs ++ [Wait_wakeup timed_out]) s = Some s' ->
     _bStopThread s' = _bStopThread s /\
     _eLogLevel s' = _eLogLevel s /\
     _tFileStream s' = _tFileStream s /\
     (exists done, _LogQueue s = done ++ _LogQueue s')%list /\
     (forall path, exists txt, disk s' path = disk s path ++ txt)).
Proof.
  split; [|split].
  - unfold wait. destruct (_tMutex s); [now right; right|].
    destruct (_LogQueue s); [now left | now right; left].
  - intros timed_out. unfold wait_wakeup.
    destruct (_tMutex s); [now right; right|].
    destruct timed_out; [now left|].
    destruct (_LogQueue s); [now left | now right; left].
  - intros cs timed_out s' Hcs H.
    change (Call_wait :: cs ++ [Wait_wakeup timed_out])%list
      with ([Call_wait] ++ cs ++ [Wait_wakeup timed_out])%list in H.
    rewrite run_app in H.
    destruct (run [Call_wait] s) as [s1|] eqn:E1; [|discriminate H].
    rewrite run_app in H.
    destruct (run cs s1) as [s2|] eqn:E2; [|discriminate H].
    assert (M1 : consumer_may s s1).
    { cbn in E1. open_state s. unfold_calls. split_tests; frame_of_move. }
    assert (M3 : consumer_may s2 s').
    { cbn in H. open_state s2. unfold_calls. split_tests; frame_of_move. }
    pose proof (consumer_labels_may cs s1 s2 Hcs E2) as M2.
    destruct (consumer_may_trans _ _ _ M1 (consumer_may_trans _ _ _ M2 M3))
      as (A & B & C & D & F).
    exact (conj A (conj B (conj C (conj D F)))).
Qed.

Lemma wait_mutates_nothing_witness :
  _bStopThread
    (after (drained_during_wait
            ++ Call_wait :: repeat tick 7 ++ [Wait_wakeup true])
       (Logger_new "" no_files)) =
  _bStopThread (after drained_during_wait (Logger_new "" no_files)) /\
  exists done,
    (_LogQueue (after drained_during_wait (Logger_new "" no_files)) =
     done ++ _LogQueue
               (after (drained_during_wait
                       ++ Call_wait :: repeat tick 7 ++ [Wait_wakeup true])
                  (Logger_new "" no_files)))%list.
Proof.
  destruct (proj2 (proj2 (wait_mutates_nothing
                            (after drained_during_wait
                               (Logger_new "" no_files))))
              (repeat tick 7) true
              (after (drained_during_wait
                      ++ Call_wait :: repeat tick 7 ++ [Wait_wakeup true])
                 (Logger_new "" no_files)))
    as (A & _ & _ & D & _).
  - reflexivity.
  - vm_compute. reflexivity.
  - exact (conj A D).
Defined.

(** C9, as the specification words it, fails: a record is queued when
    [wait()] is called, the consumer writes it to the file while the caller
    is inside [wait()], and when [wait()] returns on its timeout the queue
    is empty, not what it was at the call. *)
Lemma wait_does_not_return_in_the_state_of_the_call :
  ~ wait_returns_in_the_state_of_the_call.
Proof.
  intros H.
  destruct (H (after drained_during_wait (Logger_new "" no_files))
              (repeat tick 7) true
              (after (drained_during_wait
                      ++ Call_wait :: repeat tick 7 ++ [Wait_wakeup true])
                 (Logger_new "" no_files)))
    as (_ & _ & _ & _ & E).
  - exists "", no_files, drained_during_wait. vm_compute. reflexivity.
  - reflexivity.
  - vm_compute. reflexivity.
  - vm_compute. reflexivity.
  - vm_compute in E. discriminate E.
Qed.

(** ** Records left behind by [shutdown] *)

(** C1, on the code.  Two executions in which every [log] call is accepted
    at or above the threshold between [init] and [shutdown], the file is
    open, and [shutdown()] returns while a record is still in the queue and
    was never written.  In the first the new thread evaluates its loop
    condition for the first time after the stop flag is set, and writes
    nothing.  In the second the consumer has written the first record and
    is back at its loop condition when the second record and the stop flag
    arrive: the file holds the first line only. *)
Theorem shutdown_leaves_record_unwritten :
  (log INFO "one" "/src/main.cpp" "main" 10
     (after [Call_init DBUG "app.log" true] (Logger_new "" no_files)) =
     Return (after [Call_init DBUG "app.log" true; Call_entry first_entry]
               (Logger_new "" no_files)) /\
   exists s,
     run early_shutdown (Logger_new "" no_files) = Some s /\
     caller s = Idle /\
     _tAsyncThread s = not_a_thread /\
     _tFileStream s = Some "app.log" /\
     _LogQueue s = [first_entry] /\
     disk s "app.log" = "" /\
     cout s = "") /\
  (exists s,
     run late_record (Logger_new "" no_files) = Some s /\
     caller s = Idle /\
     _tAsyncThread s = not_a_thread /\
     _tFileStream s = Some "app.log" /\
     _LogQueue s = [second_entry] /\
     disk s "app.log" =
       "[2024-06-22 10:00:00.500] [INFO][7]: one (main.cpp main:10)"
       ++ newline).
Proof.
  split; [split|].
  - vm_compute. reflexivity.
  - exists (after early_shutdown (Logger_new "" no_files)).
    repeat apply conj; vm_compute; reflexivity.
  - exists (after late_record (Logger_new "" no_files)).
    repeat apply conj; vm_compute; reflexivity.
Qed.

(** * Further properties *)

(** ** What goes in comes out, in order *)

Lemma flatten_app (a b : list string) :
  flatten (a ++ b) = flatten a ++ flatten b.
Proof.
  induction a as [|x a IH]; cbn; [reflexivity|].
  now rewrite IH, append_assoc.
Qed.

Ltac split_goal :=
  cbn in *; try subst; cbn in *;
  repeat match goal with
  | |- context [if ?x then _ else _] => destruct x eqn:?; cbn in *
  | |- context [match ?x with _ => _ end] => destruct x eqn:?; cbn in *
  end.

Lemma step_conserves (l : label) (s s' : state) :
  step l s = Some s' ->
  ((inflight s ++ _LogQueue s) ++ accepted_by l s =
   map w_entry (written_by l s) ++ inflight s' ++ _LogQueue s')%list.
Proof.
  intros H. destruct l; cbn [step] in H.
  7: { unfold consumer_step in H. unfold inflight, written_by, accepted_by.
       destruct (_tAsyncThread s) as [|pc]; [discriminate|].
       destruct pc; try discriminate;
         try (injection H as <-; rewrite emit_frame; cbn;
              now rewrite app_nil_r);
         split_tests; split_goal; rewrite ?app_nil_r; cbn; congruence. }
  all: unfold inflight, written_by, accepted_by; open_state s; unfold_calls;
    split_tests; split_goal; rewrite ?app_nil_r; cbn; congruence.
Qed.

Lemma run_conserves (ls : list label) (s s' : state) :
  run ls s = Some s' ->
  ((inflight s ++ _LogQueue s) ++ accepted ls s =
   map w_entry (writes ls s) ++ inflight s' ++ _LogQueue s')%list.
Proof.
  revert s. induction ls as [|l ls IH]; intros s H; cbn in H |- *.
  - injection H as <-. now rewrite app_nil_r.
  - destruct (step l s) as [s1|] eqn:E; [|discriminate].
    rewrite map_app, app_assoc, (step_conserves l s s1 E), <- !app_assoc.
    f_equal. rewrite app_assoc. exact (IH s1 H).
Qed.

(** X1.  Nothing is lost, doubled or reordered inside the logger: along
    every execution, the records in flight and queued at the start followed
    by the records accepted on the way are the records written on the way
    followed by the record in flight and the records queued at the end. *)
Theorem accepted_written_or_pending (ls : list label) (s s' : state) :
  run ls s = Some s' ->
  ((inflight s ++ _LogQueue s) ++ accepted ls s =
   map w_entry (writes ls s) ++ inflight s' ++ _LogQueue s')%list.
Proof.
  revert s. induction ls as [|l ls IH]; intros s H; cbn in H |- *.
  - injection H as <-. now rewrite app_nil_r.
  - destruct (step l s) as [s1|] eqn:E; [|discriminate].
    rewrite map_app, app_assoc, (step_conserves l s s1 E), <- !app_assoc.
    f_equal. rewrite app_assoc. exact (IH s1 H).
Qed.

Lemma accepted_written_or_pending_witness :
  accepted late_record (Logger_new "" no_files) =
    (map w_entry (writes late_record (Logger_new "" no_files))
     ++ [second_entry])%list.
Proof.
  pose proof (accepted_written_or_pending late_record
                (Logger_new "" no_files)
                (after late_record (Logger_new "" no_files))) as H.
  cbn [inflight Logger_new _tAsyncThread _LogQueue app] in H.
  rewrite H; [|vm_compute; reflexivity].
  f_equal.
Defined.

(** ** What the sinks hold *)

Lemma emit_cout (now : time_point) (tid : Z) (logEntry : LogEntry)
  (s : state) :
  cout (emit now tid logEntry s) =
    cout s ++ console_block (mk_written now tid (_tFileStream s) logEntry).
Proof.
  unfold console_block, line_of. cbn [w_now w_tid w_entry].
  cbv beta zeta delta [emit].
  generalize (_formatLogMessage now tid (entry_level logEntry)
                (entry_message logEntry) (entry_file logEntry)
                (entry_func logEntry) (entry_line logEntry)).
  intros logMessage.
  destruct (entry_level logEntry);
    cbv beta iota zeta delta
      [insert_temporary fst snd color text oss_new oss_str oss_fill oss_width
       ConsoleColorSetter_delete _resetColor set_cout cout level_color];
    fold cout; rewrite !escape_color_code, !pad_zero_width;
    destruct (_tFileStream s); cbn [cout set_disk];
    unfold reset;
    repeat (progress (rewrite ?append_assoc; cbn [append]));
    reflexivity.
Qed.

Lemma step_cout (l : label) (s s' : state) :
  step l s = Some s' ->
  cout s' = cout s ++ flatten (map console_block (written_by l s)).
Proof.
  intros H. destruct l; cbn [step] in H.
  7: { unfold consumer_step in H. unfold written_by.
       destruct (_tAsyncThread s) as [|pc]; [discriminate|].
       destruct pc; try discriminate;
         try (injection H as <-; cbn [set_tAsyncThread cout map flatten];
              now rewrite emit_cout, append_nil_r);
         split_tests; now rewrite append_nil_r. }
  all: unfold written_by; open_state s; unfold_calls; split_tests;
    split_goal; now rewrite append_nil_r.
Qed.

Lemma step_disk (l : label) (s s' : state) (path : string) :
  step l s = Some s' ->
  disk s' path =
    disk s path ++ flatten (map line_of (filter (into path) (written_by l s))).
Proof.
  intros H. destruct l; cbn [step] in H.
  7: { unfold consumer_step in H. unfold written_by.
       destruct (_tAsyncThread s) as [|pc]; [discriminate|].
       destruct pc; try discriminate.
       5: { injection H as <-. cbn [set_tAsyncThread disk filter].
            rewrite emit_disk. unfold into. cbn [w_stream].
            destruct (_tFileStream s) as [p|].
            - unfold append_file. destruct (path =? p)%string;
                cbn [filter map flatten]; unfold line_of;
                cbn [w_now w_tid w_entry]; now rewrite ?append_nil_r.
            - cbn [filter map flatten]. now rewrite append_nil_r. }
       all: split_tests; now rewrite append_nil_r. }
  all: unfold written_by; open_state s; unfold_calls; split_tests;
    split_goal; now rewrite append_nil_r.
Qed.

(** X2.  The console holds, after what it showed at the start, one block
    per record written and nothing else: for each record, in the order of
    writing, two resets, the colour of its level, its line and a reset. *)
Theorem console_holds_the_blocks (ls : list label) (s s' : state) :
  run ls s = Some s' ->
  cout s' = cout s ++ flatten (map console_block (writes ls s)).
Proof.
  revert s. induction ls as [|l ls IH]; intros s H; cbn in H |- *.
  - injection H as <-. now rewrite append_nil_r.
  - destruct (step l s) as [s1|] eqn:E; [|discriminate].
    rewrite map_app, flatten_app, <- append_assoc, <- (step_cout l s s1 E).
    exact (IH s1 H).
Qed.

Lemma console_holds_the_blocks_witness :
  cout (after late_record (Logger_new "" no_files)) =
    flatten (map console_block (writes late_record (Logger_new "" no_files))).
Proof.
  rewrite (console_holds_the_blocks late_record (Logger_new "" no_files));
    [reflexivity | vm_compute; reflexivity].
Defined.

Lemma run_disk (ls : list label) (s s' : state) (path : string) :
  run ls s = Some s' ->
  disk s' path =
    disk s path ++ flatten (map line_of (filter (into path) (writes ls s))).
Proof.
  revert s. induction ls as [|l ls IH]; intros s H; cbn in H |- *.
  - injection H as <-. now rewrite append_nil_r.
  - destruct (step l s) as [s1|] eqn:E; [|discriminate].
    rewrite filter_app, map_app, flatten_app, <- append_assoc,
      <- (step_disk l s s1 path E).
    exact (IH s1 H).
Qed.

(** X3.  Every file holds, after what it held at the start, the lines of
    the records that were written while the file stream was open on its
    path, in the order of writing, and nothing else; a file the stream was
    never open on is left as it was. *)
Theorem file_holds_the_lines (ls : list label) (s s' : state)
  (path : string) :
  run ls s = Some s' ->
  disk s' path =
    disk s path ++ flatten (map line_of (filter (into path) (writes ls s))).
Proof.
  revert s. induction ls as [|l ls IH]; intros s H; cbn in H |- *.
  - injection H as <-. now rewrite append_nil_r.
  - destruct (step l s) as [s1|] eqn:E; [|discriminate].
    rewrite filter_app, map_app, flatten_app, <- append_assoc,
      <- (step_disk l s s1 path E).
    exact (IH s1 H).
Qed.

Lemma file_holds_the_lines_witness :
  disk (after late_record (Logger_new "" no_files)) "app.log" =
    flatten (map line_of
               (filter (into "app.log")
                  (writes late_record (Logger_new "" no_files)))).
Proof.
  rewrite (file_holds_the_lines late_record (Logger_new "" no_files));
    [reflexivity | vm_compute; reflexivity].
Defined.

Lemma step_keeps_stream_closed (l : label) (s s' : state) :
  opens_nothing l = true -> _tFileStream s = None -> step l s = Some s' ->
  _tFileStream s' = None.
Proof.
  intros Hl Hs H. destruct l; cbn [step] in H; cbn in Hl.
  7: { unfold consumer_step in H.
       destruct (_tAsyncThread s) as [|pc]; [discriminate|].
       destruct pc; try discriminate;
         try rewrite (emit_frame now tid logEntry s) in H;
         split_tests; assumption. }
  all: open_state s; unfold_calls; split_tests; split_goal; congruence.
Qed.

Lemma closed_stream_writes (ls : list label) (s : state) (path : string) :
  forallb opens_nothing ls = true -> _tFileStream s = None ->
  filter (into path) (writes ls s) = [].
Proof.
  revert s. induction ls as [|l ls IH]; intros s Hls Hs; cbn in Hls |- *;
    [reflexivity|].
  apply andb_prop in Hls as [Hl Hls]. rewrite filter_app.
  assert (E : filter (into path) (written_by l s) = []).
  { unfold written_by. destruct l; try reflexivity.
    destruct (_tAsyncThread s) as [|[]]; try reflexivity.
    cbn. unfold into. cbn. now rewrite Hs. }
  rewrite E. cbn. destruct (step l s) as [s1|] eqn:E1; [|reflexivity].
  apply IH; [assumption|]. exact (step_keeps_stream_closed l s s1 Hl Hs E1).
Qed.

(** X4.  When no [init] of an execution gets its file open, logging goes
    on with the console alone: whatever is logged and written, no file of
    the machine changes. *)
Theorem failed_open_leaves_files_alone (ls : list label) (out : string)
  (d : files) (s' : state) (path : string) :
  forallb opens_nothing ls = true ->
  run ls (Logger_new out d) = Some s' ->
  disk s' path = d path /\ _tFileStream s' = None.
Proof.
  intros Hls H. split.
  - rewrite (run_disk ls _ s' path H).
    rewrite closed_stream_writes by (assumption || reflexivity).
    cbn. now rewrite append_nil_r.
  - clear path. revert H. generalize (eq_refl : _tFileStream (Logger_new out d) = None).
    generalize (Logger_new out d). induction ls as [|l ls IH];
      intros s Hs H; cbn in H, Hls.
    + now injection H as <-.
    + apply andb_prop in Hls as [Hl Hls].
      destruct (step l s) as [s1|] eqn:E; [|discriminate].
      exact (IH Hls s1 (step_keeps_stream_closed l s s1 Hl Hs E) H).
Qed.

Lemma failed_open_leaves_files_alone_witness :
  disk (after console_only (Logger_new "" no_files)) "app.log" = "" /\
  cout (after console_only (Logger_new "" no_files)) <> "".
Proof.
  split.
  - apply (failed_open_leaves_files_alone console_only "" no_files
             (after console_only (Logger_new "" no_files)) "app.log").
    + reflexivity.
    + vm_compute. reflexivity.
  - vm_compute. discriminate.
Defined.

(** ** The second invariant *)

Ltac by_booleans :=
  repeat match goal with b : bool |- _ => destruct b end;
  cbn in *; congruence.

Lemma inv2_Logger_new (out : string) (d : files) :
  inv2 (Logger_new out d) = true.
Proof. reflexivity. Qed.

Lemma consumer_step_inv2 (now : time_point) (tid : Z) (s s' : state) :
  inv2 s = true -> consumer_step now tid s = Some s' -> inv2 s' = true.
Proof.
  intros I H. unfold inv2 in *.
  apply andb_prop in I as [I R]. apply andb_prop in I as [I S].
  rewrite (consumer_step_inv now tid s s' I H). cbn [andb].
  unfold consumer_step in H.
  destruct (_tAsyncThread s) as [|pc] eqn:Ht; [discriminate|].
  destruct pc; try discriminate.
  all: try rewrite (emit_frame now tid logEntry s) in H.
  all: open_state s; unfold sleep_ok, running_ok in *; split_tests;
    split_goal; try reflexivity; try congruence; by_booleans.
Qed.

Lemma step_inv2 (l : label) (s s' : state) :
  inv2 s = true -> step l s = Some s' -> inv2 s' = true.
Proof.
  intros I H.
  destruct l; [ | | | | | | now apply (consumer_step_inv2 now tid s) | ].
  all: unfold inv2 in *;
    apply andb_prop in I as [I R]; apply andb_prop in I as [I S];
    rewrite (step_inv _ s s' I H); cbn [andb];
    cbn [step] in H; open_state s; unfold_calls;
    unfold inv, mutex_ok, join_ok, sleep_ok, running_ok in *;
    split_tests; split_goal; try reflexivity; try congruence;
    by_booleans.
Qed.

Lemma run_inv2 (ls : list label) (s s' : state) :
  inv2 s = true -> run ls s = Some s' -> inv2 s' = true.
Proof.
  revert s. induction ls as [|l ls IH]; intros s I H; cbn in H.
  - now injection H as <-.
  - destruct (step l s) as [s1|] eqn:Hs; [|discriminate].
    exact (IH s1 (step_inv2 l s s1 I Hs) H).
Qed.

Lemma reachable_inv2 (s : state) : reachable s -> inv2 s = true.
Proof.
  intros (out & d & ls & H). exact (run_inv2 ls _ s (inv2_Logger_new out d) H).
Qed.

(** X5.  No wake-up is lost: in every state of every execution, a consumer
    that sleeps inside its wait has an empty queue and a clear stop flag; a
    record or a stop request never sits behind a sleeping consumer. *)
Theorem asleep_only_when_idle (s : state) :
  reachable s ->
  _tAsyncThread s = running Asleep ->
  _LogQueue s = [] /\ _bStopThread s = false.
Proof.
  intros R Ht. pose proof (reachable_inv2 s R) as I. unfold inv2 in I.
  apply andb_prop in I as [I _]. apply andb_prop in I as [_ S].
  unfold sleep_ok in S. rewrite Ht in S. apply andb_prop in S as [F Q].
  split.
  - now destruct (_LogQueue s).
  - now destruct (_bStopThread s).
Qed.

Lemma asleep_only_when_idle_witness :
  _LogQueue (after [Call_init DBUG "app.log" true; tick; tick; tick]
               (Logger_new "" no_files)) = [] /\
  _bStopThread (after [Call_init DBUG "app.log" true; tick; tick; tick]
                  (Logger_new "" no_files)) = false.
Proof.
  apply asleep_only_when_idle.
  - exists "", no_files, [Call_init DBUG "app.log" true; tick; tick; tick].
    vm_compute. reflexivity.
  - vm_compute. reflexivity.
Defined.

(** X6.  [init] must not be called twice: in every state of every
    execution in which the stop flag is clear, the consumer thread exists,
    and a call of [init] ends in [std::terminate] as soon as it has the
    mutex (it assigns to a joinable [std::thread]); it never returns. *)
Theorem init_while_running_terminates (s : state) (level : LogLevel)
  (filename : string) (opens : bool) :
  reachable s ->
  _bStopThread s = false ->
  joinable (_tAsyncThread s) = true /\
  (_tMutex s = None -> init level filename opens s = Terminate) /\
  (_tMutex s <> None -> init level filename opens s = WouldBlock).
Proof.
  intros R F. pose proof (reachable_inv2 s R) as I. unfold inv2 in I.
  apply andb_prop in I as [_ J]. unfold running_ok in J. rewrite F in J.
  cbn in J. split; [exact J|].
  open_state s. cbn in *. subst. unfold_calls. cbn.
  split; intros M.
  - subst. cbn. destruct fs, opens, thr; cbn in *; congruence.
  - destruct mtx; [reflexivity | congruence].
Qed.

Lemma init_while_running_terminates_witness :
  init INFO "other.log" true
    (after [Call_init DBUG "app.log" true] (Logger_new "" no_files))
  = Terminate.
Proof.
  apply (init_while_running_terminates
           (after [Call_init DBUG "app.log" true] (Logger_new "" no_files))).
  - exists "", no_files, [Call_init DBUG "app.log" true].
    vm_compute. reflexivity.
  - reflexivity.
  - reflexivity.
Defined.

(** X7.  The stopped state is not final in the code: after a completed
    [shutdown()], [init] returns again; it sets the new threshold, clears
    the stop flag, starts a new consumer at the test of its outer loop,
    opens the new file or none, and keeps the queue, the console and the
    files as the stop left them. *)
Theorem init_after_shutdown_restarts (s s' : state) (level : LogLevel)
  (filename : string) (opens : bool) :
  reachable s ->
  step Join_return s = Some s' ->
  exists s'',
    init level filename opens s' = Return s'' /\
    _bStopThread s'' = false /\
    _eLogLevel s'' = level /\
    _tAsyncThread s'' = running AtOuterTest /\
    _tFileStream s'' = (if opens then Some filename else None) /\
    _LogQueue s'' = _LogQueue s' /\
    cout s'' = cout s' /\
    disk s'' = disk s'.
Proof.
  intros R H. pose proof (reachable_inv s R) as I.
  cbn [step] in H. open_state s. unfold_calls.
  unfold inv, mutex_ok, join_ok in I. split_tests.
  all: destruct fs, opens; eexists; (split; [reflexivity|]); cbn;
    repeat apply conj; reflexivity.
Qed.

Lemma init_after_shutdown_restarts_witness :
  exists s'',
    init WARN "next.log" true
      (after (late_record) (Logger_new "" no_files)) = Return s'' /\
    _LogQueue s'' = [second_entry].
Proof.
  destruct (init_after_shutdown_restarts
              (after (removelast late_record) (Logger_new "" no_files))
              (after late_record (Logger_new "" no_files))
              WARN "next.log" true)
    as (s'' & E & _ & _ & _ & _ & Q & _).
  - exists "", no_files, (removelast late_record). vm_compute. reflexivity.
  - vm_compute. reflexivity.
  - exists s''. split; [exact E|]. rewrite Q. vm_compute. reflexivity.
Defined.

(** ** The end of the consumer thread *)

(** With the stop flag set, a consumer that is neither asleep nor done can
    take its next step. *)
Lemma consumer_can_step (now : time_point) (tid : Z) (s : state) :
  inv s = true ->
  steps_to_finish s <> O ->
  exists s', consumer_step now tid s = Some s'.
Proof.
  intros I N. unfold consumer_step. unfold steps_to_finish in N.
  unfold inv, mutex_ok in I. apply andb_prop in I as [I _].
  destruct (_tAsyncThread s) as [|pc]; [congruence|].
  destruct pc; try congruence; try (eexists; reflexivity).
  - destruct (_tMutex s) as [[]|]; try discriminate I. eexists; reflexivity.
  - destruct (_bStopThread s || _); eexists; reflexivity.
  - destruct (_LogQueue s); eexists; reflexivity.
  - destruct (_tMutex s) as [[]|]; try discriminate I. eexists; reflexivity.
Qed.

(** Each such step brings the thread one step nearer to its end, and does
    not change what will be left in the queue. *)
Lemma consumer_step_nearer (now : time_point) (tid : Z) (s s' : state) :
  _bStopThread s = true ->
  _tAsyncThread s <> running Asleep ->
  consumer_step now tid s = Some s' ->
  _bStopThread s' = true /\
  _tAsyncThread s' <> running Asleep /\
  joinable (_tAsyncThread s') = true /\
  caller s' = caller s /\
  left_behind s' = left_behind s /\
  steps_to_finish s = S (steps_to_finish s').
Proof.
  intros F A H. unfold consumer_step in H.
  destruct (_tAsyncThread s) as [|pc] eqn:Ht; [discriminate|].
  destruct pc; try discriminate; try congruence.
  all: try rewrite (emit_frame now tid logEntry s) in H.
  all: unfold left_behind, steps_to_finish; rewrite Ht; open_state s;
    cbn in F, Ht; subst; split_tests; cbn;
    repeat apply conj; try reflexivity; try discriminate; lia.
Qed.

Lemma run_ticks_cons (now : time_point) (tid : Z)
  (rs : list (time_point * Z)) (s : state) :
  run (ticks ((now, tid) :: rs)) s =
    match consumer_step now tid s with
    | Some s1 => run (ticks rs) s1
    | None => None
    end.
Proof. reflexivity. Qed.

Lemma consumer_finishes (rs : list (time_point * Z)) (s : state) :
  inv s = true ->
  _bStopThread s = true ->
  _tAsyncThread s <> running Asleep ->
  joinable (_tAsyncThread s) = true ->
  length rs = steps_to_finish s ->
  exists s',
    run (ticks rs) s = Some s' /\
    _tAsyncThread s' = running Finished /\
    _bStopThread s' = true /\
    caller s' = caller s /\
    _LogQueue s' = left_behind s.
Proof.
  revert s. induction rs as [|[now tid] rs IH]; intros s I F A J L.
  - exists s. cbn in L. unfold steps_to_finish in L. unfold left_behind.
    destruct (_tAsyncThread s) as [|pc]; [discriminate J|].
    destruct pc; try lia; try congruence. now repeat split.
  - cbn in L.
    destruct (consumer_can_step now tid s I) as (s1 & E); [lia|].
    destruct (consumer_step_nearer now tid s s1 F A E)
      as (F1 & A1 & J1 & C1 & B1 & N1).
    destruct (IH s1 (consumer_step_inv now tid s s1 I E) F1 A1 J1)
      as (s' & R & T & F' & C' & Q'); [lia|].
    exists s'. rewrite run_ticks_cons, E. repeat split; congruence.
Qed.

Lemma consumer_run_to_end (rs : list (time_point * Z)) (s s' : state) :
  _bStopThread s = true ->
  _tAsyncThread s <> running Asleep ->
  run (ticks rs) s = Some s' ->
  _tAsyncThread s' = running Finished ->
  _LogQueue s' = left_behind s.
Proof.
  revert s. induction rs as [|[now tid] rs IH]; intros s F A H T.
  - cbn in H. injection H as <-. unfold left_behind. now rewrite T.
  - rewrite run_ticks_cons in H.
    destruct (consumer_step now tid s) as [s1|] eqn:E; [|discriminate].
    destruct (consumer_step_nearer now tid s s1 F A E)
      as (F1 & A1 & _ & _ & B1 & _).
    rewrite <- B1. now apply IH.
Qed.

(** The state in which [shutdown()] parks its caller. *)
Lemma shutdown_suspends (s s1 : state) :
  inv s = true ->
  caller s = Idle ->
  shutdown s = Suspend s1 ->
  inv s1 = true /\
  _bStopThread s1 = true /\
  caller s1 = InJoin /\
  _tAsyncThread s1 <> running Asleep /\
  joinable (_tAsyncThread s1) = true /\
  _tAsyncThread s1 <> running Finished /\
  (_tAsyncThread s <> running AtOuterTest -> left_behind s1 = []).
Proof.
  intros I C H. split.
  - apply (step_inv Call_shutdown s s1 I). cbn [step]. now rewrite C, H.
  - clear I. open_state s. unfold_calls. unfold left_behind. split_tests;
      cbn in *; subst; cbn; repeat apply conj; try reflexivity;
      try discriminate; try congruence.
Qed.

(** X8.  [shutdown()] comes back: once it has set the stop flag and waits
    in [join], the consumer reaches the end of [_processLogQueue] after
    exactly [steps_to_finish] of its steps, whatever the clock shows, and
    [join] then returns; the caller is free again and the thread is gone.
    The queue then holds what was queued when the flag was set if the
    consumer was at the test of its outer loop, and nothing otherwise. *)
Theorem shutdown_returns (s s1 : state) (rs : list (time_point * Z)) :
  reachable s ->
  caller s = Idle ->
  shutdown s = Suspend s1 ->
  length rs = steps_to_finish s1 ->
  exists s2,
    run (ticks rs ++ [Join_return]) s1 = Some s2 /\
    caller s2 = Idle /\
    _tAsyncThread s2 = not_a_thread /\
    _bStopThread s2 = true /\
    _LogQueue s2 = left_behind s1.
Proof.
  intros R C H L. pose proof (reachable_inv s R) as I.
  destruct (shutdown_suspends s s1 I C H) as (I1 & F1 & C1 & A1 & J1 & _).
  destruct (consumer_finishes rs s1 I1 F1 A1 J1 L)
    as (s' & E & T & F' & C' & Q').
  exists (set_caller Idle (set_tAsyncThread not_a_thread s')).
  rewrite run_app, E. cbn [run step]. rewrite C', C1. unfold join.
  rewrite T. now repeat split.
Qed.

Lemma shutdown_returns_witness :
  exists s2,
    run (ticks (repeat (sample_time, 7) 4) ++ [Join_return])
      (after (busy_consumer ++ [Call_shutdown]) (Logger_new "" no_files))
    = Some s2 /\
    caller s2 = Idle /\ _LogQueue s2 = [].
Proof.
  destruct (shutdown_returns
              (after busy_consumer (Logger_new "" no_files))
              (after (busy_consumer ++ [Call_shutdown])
                 (Logger_new "" no_files))
              (repeat (sample_time, 7) 4))
    as (s2 & E & C & _ & _ & Q).
  - exists "", no_files, busy_consumer. vm_compute. reflexivity.
  - vm_compute. reflexivity.
  - vm_compute. reflexivity.
  - vm_compute. reflexivity.
  - exists s2. split; [exact E|]. split; [exact C|]. rewrite Q.
    vm_compute. reflexivity.
Defined.

(** X9.  [shutdown()] drains the queue unless the consumer is at the test
    of its outer loop when the stop flag is set: in every execution in
    which [shutdown()] had to wait for the consumer and found it anywhere
    else, the queue is empty when [shutdown()] has returned, and the
    records accepted during the whole execution are exactly the records
    written, in the same order. *)
Theorem shutdown_drains_unless_at_outer_test (out : string) (d : files)
  (ls : list label) (s s1 s2 : state) (rs : list (time_point * Z)) :
  run ls (Logger_new out d) = Some s ->
  caller s = Idle ->
  shutdown s = Suspend s1 ->
  _tAsyncThread s <> running AtOuterTest ->
  run (ticks rs ++ [Join_return]) s1 = Some s2 ->
  _LogQueue s2 = [] /\
  accepted (ls ++ Call_shutdown :: ticks rs ++ [Join_return])
    (Logger_new out d) =
  map w_entry (writes (ls ++ Call_shutdown :: ticks rs ++ [Join_return])
                 (Logger_new out d)).
Proof.
  intros E C H N E2.
  assert (R : reachable s) by (now exists out, d, ls).
  pose proof (reachable_inv s R) as I.
  destruct (shutdown_suspends s s1 I C H) as (I1 & F1 & C1 & A1 & J1 & _ & B).
  specialize (B N).
  assert (W : run (ls ++ Call_shutdown :: ticks rs ++ [Join_return])
                (Logger_new out d) = Some s2).
  { rewrite run_app, E. cbn [run step]. now rewrite C, H. }
  rewrite run_app in E2.
  destruct (run (ticks rs) s1) as [s'|] eqn:E1; [|discriminate].
  cbn [run step] in E2.
  assert (C' : caller s' = InJoin).
  { destruct (caller s') eqn:X; try discriminate E2. reflexivity. }
  rewrite C' in E2. unfold join in E2.
  destruct (_tAsyncThread s') as [|pc] eqn:T; [discriminate|].
  destruct pc; try discriminate. injection E2 as <-.
  pose proof (consumer_run_to_end rs s1 s' F1 A1 E1 T) as Q.
  rewrite B in Q. split; [exact Q|].
  pose proof (run_conserves _ _ _ W) as K.
  cbn [inflight Logger_new _tAsyncThread _LogQueue app] in K.
  rewrite K. cbn [inflight set_caller set_tAsyncThread _tAsyncThread
                  _LogQueue app].
  now rewrite Q, app_nil_r.
Qed.

Lemma shutdown_drains_unless_at_outer_test_witness :
  _LogQueue
    (after (busy_consumer ++ Call_shutdown
            :: ticks (repeat (sample_time, 7) 4) ++ [Join_return])
       (Logger_new "" no_files)) = [] /\
  accepted (busy_consumer ++ Call_shutdown
            :: ticks (repeat (sample_time, 7) 4) ++ [Join_return])
    (Logger_new "" no_files) =
  map w_entry
    (writes (busy_consumer ++ Call_shutdown
             :: ticks (repeat (sample_time, 7) 4) ++ [Join_return])
       (Logger_new "" no_files)).
Proof.
  apply (shutdown_drains_unless_at_outer_test "" no_files busy_consumer
           (after busy_consumer (Logger_new "" no_files))
           (after (busy_consumer ++ [Call_shutdown])
              (Logger_new "" no_files))).
  - vm_compute. reflexivity.
  - vm_compute. reflexivity.
  - vm_compute. reflexivity.
  - vm_compute. discriminate.
  - vm_compute. reflexivity.
Defined.

(** ** How long the mutex is held *)

(** X10.  The consumer gives the mutex back within two of its steps, and
    these steps write nothing: in every state of every execution in which
    the consumer holds the mutex, its next step or the one after leaves the
    mutex free, with the console and the files as they were. *)
Theorem mutex_held_for_two_steps_at_most (s : state)
  (now1 now2 : time_point) (tid1 tid2 : Z) :
  reachable s ->
  _tMutex s = Some Consumer ->
  exists s1,
    consumer_step now1 tid1 s = Some s1 /\
    cout s1 = cout s /\ disk s1 = disk s /\
    (_tMutex s1 = None \/
     exists s2,
       consumer_step now2 tid2 s1 = Some s2 /\
       cout s2 = cout s /\ disk s2 = disk s /\ _tMutex s2 = None).
Proof.
  intros R M. pose proof (reachable_inv s R) as I.
  unfold inv, mutex_ok in I. apply andb_prop in I as [I _].
  rewrite M in I. unfold consumer_step at 1.
  destruct (_tAsyncThread s) as [|pc] eqn:T; [discriminate I|].
  destruct pc; try discriminate I.
  - (* AtWait *)
    destruct (_bStopThread s || _) eqn:P.
    + eexists. split; [reflexivity|]. split; [reflexivity|].
      split; [reflexivity|]. right. unfold consumer_step.
      cbn [set_tAsyncThread _tAsyncThread _LogQueue].
      destruct (_LogQueue s); eexists; repeat apply conj; reflexivity.
    + eexists. split; [reflexivity|]. split; [reflexivity|].
      split; [reflexivity|]. now left.
  - (* AtInnerTest *)
    destruct (_LogQueue s); eexists; (split; [reflexivity|]);
      (split; [reflexivity|]); (split; [reflexivity|]); now left.
Qed.

Lemma mutex_held_for_two_steps_at_most_witness :
  exists s1,
    consumer_step sample_time 7
      (after two_queued (Logger_new "" no_files)) = Some s1 /\
    _tMutex s1 = None.
Proof.
  destruct (mutex_held_for_two_steps_at_most
              (after two_queued (Logger_new "" no_files))
              sample_time sample_time 7 7)
    as (s1 & E & _ & _ & [M | (s2 & E2 & _ & _ & M2)]).
  - exists "", no_files, two_queued. vm_compute. reflexivity.
  - vm_compute. reflexivity.
  - exists s1. split; [exact E | exact M].
  - exists s1. split; [exact E|].
    vm_compute in E. injection E as <-. reflexivity.
Defined.

(** ** The threshold, seen from the sinks *)

Lemma step_keeps_threshold (l : label) (s s' : state) :
  is_init l = false -> step l s = Some s' -> _eLogLevel s' = _eLogLevel s.
Proof.
  intros Hl H. destruct l; try discriminate Hl; cbn [step] in H.
  6: { unfold consumer_step in H.
       destruct (_tAsyncThread s) as [|pc]; [discriminate|].
       destruct pc; try discriminate;
         try rewrite (emit_frame now tid logEntry s) in H;
         open_state s; split_tests; split_goal; reflexivity. }
  all: open_state s; unfold_calls; split_tests; split_goal; reflexivity.
Qed.

Lemma accepted_at_least (ls : list label) (s : state) :
  forallb (fun l => negb (is_init l)) ls = true ->
  Forall (at_least (_eLogLevel s)) (accepted ls s).
Proof.
  revert s. induction ls as [|l ls IH]; intros s Hls; cbn in Hls |- *;
    [constructor|].
  apply andb_prop in Hls as [Hl Hls]. apply negb_true_iff in Hl.
  apply Forall_app. split.
  - unfold accepted_by. destruct l; try constructor.
    destruct (negb (_bStopThread s) && LogLevel_ge level (_eLogLevel s))
      eqn:E; constructor; [|constructor].
    apply andb_prop in E as [_ E]. exact E.
  - destruct (step l s) as [s1|] eqn:E; [|constructor].
    rewrite <- (step_keeps_threshold l s s1 Hl E). now apply IH.
Qed.

(** X11.  Below the threshold nothing reaches a sink: in an execution that
    starts with [init] at some threshold and has no other [init], every
    record that is written, and every record still queued at the end, has
    a level at or above that threshold. *)
Theorem written_records_at_least_threshold (out : string) (d : files)
  (level : LogLevel) (filename : string) (opens : bool) (ls : list label)
  (s' : state) :
  forallb (fun l => negb (is_init l)) ls = true ->
  run (Call_init level filename opens :: ls) (Logger_new out d) = Some s' ->
  Forall (fun w => at_least level (w_entry w))
    (writes (Call_init level filename opens :: ls) (Logger_new out d)) /\
  Forall (at_least level) (_LogQueue s').
Proof.
  intros Hls H.
  pose proof (run_conserves _ _ _ H) as K.
  cbn [inflight Logger_new _tAsyncThread _LogQueue app] in K.
  assert (A : Forall (at_least level)
                (accepted (Call_init level filename opens :: ls)
                   (Logger_new out d))).
  { cbn [accepted accepted_by app]. cbn in H.
    destruct (step (Call_init level filename opens) (Logger_new out d))
      as [s1|] eqn:E; [|constructor].
    assert (L : _eLogLevel s1 = level).
    { cbn in E. destruct opens; injection E as <-; reflexivity. }
    rewrite <- L. now apply accepted_at_least. }
  rewrite K in A. apply Forall_app in A as [A1 A2].
  apply Forall_app in A2 as [_ A2]. split; [|exact A2].
  rewrite Forall_map in A1. exact A1.
Qed.

Lemma written_records_at_least_threshold_witness :
  Forall (fun w => at_least DBUG (w_entry w))
    (writes late_record (Logger_new "" no_files)).
Proof.
  apply (written_records_at_least_threshold "" no_files DBUG "app.log" true
           (tl late_record)
           (after late_record (Logger_new "" no_files))).
  - reflexivity.
  - vm_compute. reflexivity.
Defined.

(** ** Log statements *)

Lemma LogStream_fold (values : list value) (st : LogStream) :
  oss_width (_tStream st) = O ->
  let st' := fold_left (fun st v => LogStream_insert v st) values st in
  _tLevel st' = _tLevel st /\
  _strFilePath st' = _strFilePath st /\
  _strFuncName st' = _strFuncName st /\
  _nLine st' = _nLine st /\
  oss_str (_tStream st') =
    oss_str (_tStream st) ++ flatten (map shown values).
Proof.
  revert st. induction values as [|v values IH]; intros st W; cbn.
  - now rewrite append_nil_r.
  - destruct (IH (LogStream_insert v st)) as (A & B & C & D & E).
    { now destruct v. }
    cbn in A, B, C, D. repeat split; try assumption.
    rewrite E. destruct v; cbn; unfold int, text; cbn; rewrite W;
      now rewrite pad_zero_width, append_assoc.
Qed.

(** X12.  A log statement is one [log] call whose message is what was
    streamed into it, end to end: with the stop flag clear, the level at or
    above the threshold and the mutex free, [LOG(level) << v1 << ... << vn]
    appends exactly one record to the queue, with the texts of the values
    concatenated as its message and the place of the statement as its
    origin; below the threshold it returns and changes nothing. *)
Theorem LOG_appends_one_record (level : LogLevel) (file func : string)
  (line : Z) (values : list value) (s : state) :
  _bStopThread s = false ->
  _tMutex s = None ->
  LOG level file func line values s =
    if LogLevel_ge level (_eLogLevel s)
    then Return (notify_one
                   (set_LogQueue
                      (_LogQueue s
                       ++ [mk_entry level (flatten (map shown values)) file
                             func line]) s))
    else Return s.
Proof.
  intros F M. unfold LOG, LogStream_delete.
  destruct (LogStream_fold values (LogStream_new level file func line)
              eq_refl) as (A & B & C & D & E).
  rewrite A, B, C, D, E. cbn [LogStream_new _tLevel _strFilePath _strFuncName
                               _nLine _tStream oss_new oss_str append].
  unfold log, lock_guard. rewrite F, M.
  destruct (LogLevel_ge level (_eLogLevel s)); [|reflexivity].
  unfold notify_one. open_state s. cbn in *. subst.
  now destruct thr as [|[]].
Qed.

Lemma LOG_appends_one_record_witness :
  exists s',
    LOG WARN "/src/disk.cpp" "poll" 42 [Text "free="; Number 7; Text "%"]
      (after [Call_init INFO "app.log" true] (Logger_new "" no_files))
    = Return s' /\
    _LogQueue s' = [mk_entry WARN "free=7%" "/src/disk.cpp" "poll" 42].
Proof.
  eexists. split.
  - rewrite LOG_appends_one_record by reflexivity. reflexivity.
  - reflexivity.
Defined.

(** X13.  A log statement never throws.  Made before [init] has run, or
    after [shutdown] has run and no [init] since, it ends the program in
    [std::terminate], whatever its level and its values: the
    [LogException] of [log] does not reach the code around the
    statement. *)
Theorem LOG_outside_running_terminates (level : LogLevel)
  (file func : string) (line : Z) (values : list value) :
  (forall s e s', LOG level file func line values s <> Throw e s') /\
  (forall out d ls s,
     forallb (fun l => negb (is_init l)) ls = true ->
     run ls (Logger_new out d) = Some s ->
     LOG level file func line values s = Terminate) /\
  (forall s0 s1 ls s,
     step Call_shutdown s0 = Some s1 ->
     forallb (fun l => negb (is_init l)) ls = true ->
     run ls s1 = Some s ->
     LOG level file func line values s = Terminate).
Proof.
  assert (T : forall s, _bStopThread s = true ->
            LOG level file func line values s = Terminate).
  { intros s Hs. unfold LOG, LogStream_delete, log. now rewrite Hs. }
  split; [|split].
  - intros s e s'. unfold LOG, LogStream_delete.
    destruct (log _ _ _ _ _ s); discriminate.
  - intros out d ls s Hls H. apply T.
    now apply (run_keeps_stop_flag ls (Logger_new out d)).
  - intros s0 s1 ls s H0 Hls H. apply T.
    apply (run_keeps_stop_flag ls s1); trivial.
    now apply (shutdown_sets_stop_flag s0).
Qed.

Lemma LOG_outside_running_terminates_witness :
  LOG EROR "/src/main.cpp" "main" 3 [Text "early"] (Logger_new "" no_files)
  = Terminate /\
  LOG EROR "/src/main.cpp" "main" 9 [Text "late"]
    (after start_stop (Logger_new "" no_files)) = Terminate.
Proof.
  split.
  - apply (proj1 (proj2 (LOG_outside_running_terminates EROR "/src/main.cpp"
                           "main" 3 [Text "early"])) "" no_files []);
      reflexivity.
  - apply (proj2 (proj2 (LOG_outside_running_terminates EROR "/src/main.cpp"
                           "main" 9 [Text "late"]))
             (after [Call_init DBUG "app.log" true] (Logger_new "" no_files))
             (after [Call_init DBUG "app.log" true; Call_shutdown]
                (Logger_new "" no_files))
             [tick]).
    + vm_compute. reflexivity.
    + reflexivity.
    + vm_compute. reflexivity.
Defined.

(** ** One record, one line *)

Lemma no_LF_app (a b : string) : no_LF (a ++ b) = no_LF a && no_LF b.
Proof.
  induction a as [|c a IH]; [reflexivity|].
  change (no_LF (String c a ++ b))
    with (negb (c =? LF)%char && no_LF (a ++ b)).
  change (no_LF (String c a)) with (negb (c =? LF)%char && no_LF a).
  now rewrite IH, andb_assoc.
Qed.

Lemma no_LF_uint (d : Decimal.uint) :
  no_LF (NilEmpty.string_of_uint d) = true.
Proof. induction d; cbn; try reflexivity; exact IHd. Qed.

Lemma no_LF_dec (n : Z) : no_LF (dec n) = true.
Proof.
  unfold dec, NilZero.string_of_int, NilZero.string_of_uint.
  destruct (Z.to_int n) as [d|d].
  - destruct d; try reflexivity; apply no_LF_uint.
  - change (no_LF (String "-" ?x)) with (no_LF x).
    destruct d; try reflexivity; apply no_LF_uint.
Qed.

Lemma no_LF_replicate_zero (n : nat) : no_LF (replicate n "0"%char) = true.
Proof. induction n; [reflexivity | exact IHn]. Qed.

Lemma no_LF_padded (w : nat) (n : Z) : no_LF (pad "0"%char w (dec n)) = true.
Proof.
  unfold pad. now rewrite no_LF_app, no_LF_replicate_zero, no_LF_dec.
Qed.

Lemma no_LF_timestamp (now : time_point) : no_LF (timestamp now) = true.
Proof.
  unfold timestamp, two_digits.
  repeat (rewrite no_LF_app; apply andb_true_intro; split);
    first [apply no_LF_dec | apply no_LF_padded | reflexivity].
Qed.

Lemma extractFilename_is_final_segment (filePath : string) :
  _extractFilename filePath = final_segment filePath.
Proof.
  unfold _extractFilename. rewrite extractFilename_loop_spec.
  destruct (no_slash filePath) eqn:Hn; [|reflexivity].
  symmetry. now apply final_segment_no_slash.
Qed.

Lemma no_LF_extractFilename (filePath : string) :
  no_LF filePath = true -> no_LF (_extractFilename filePath) = true.
Proof.
  intros H. rewrite extractFilename_is_final_segment.
  destruct (final_segment_is_suffix filePath) as (dir & E & _).
  rewrite E, no_LF_app in H. now apply andb_prop in H as [_ H].
Qed.

(** X14.  One record gives one line: when the message, the file name and
    the function name hold no newline, the formatted text is a body
    without any newline followed by the single newline that ends it,
    whatever the level, the clock reading, the thread id and the line
    number. *)
Theorem formatLogMessage_is_one_line (now : time_point) (tid : Z)
  (level : LogLevel) (message file func : string) (line : Z) :
  no_LF message = true ->
  no_LF file = true ->
  no_LF func = true ->
  exists body,
    _formatLogMessage now tid level message file func line = body ++ newline
    /\ no_LF body = true.
Proof.
  intros Hm Hf Hc.
  exists ("[" ++ timestamp now ++ "] [" ++ _logLevelToString level ++ "]["
          ++ dec tid ++ "]: " ++ message
          ++ " (" ++ _extractFilename file ++ " " ++ func ++ ":" ++ dec line
          ++ ")").
  split.
  - rewrite formatLogMessage_eq.
    repeat (progress (rewrite ?append_assoc; cbn [append])). reflexivity.
  - repeat (rewrite no_LF_app; apply andb_true_intro; split);
      first [ apply no_LF_dec | apply no_LF_timestamp
            | now apply no_LF_extractFilename | assumption
            | now destruct level | reflexivity ].
Qed.

Lemma formatLogMessage_is_one_line_witness :
  exists body,
    _formatLogMessage sample_time 7 WARN "disk low" "/a/b/c.cpp" "poll" 42
    = body ++ newline /\ no_LF body = true.
Proof.
  apply formatLogMessage_is_one_line; reflexivity.
Defined.

(** ** More on [_extractFilename] *)

Lemma no_slash_app (a b : string) :
  no_slash (a ++ b) = no_slash a && no_slash b.
Proof.
  induction a as [|c a IH]; [reflexivity|].
  change (no_slash (String c a ++ b))
    with (negb (is_slash c) && no_slash (a ++ b)).
  rewrite no_slash_cons, IH. now rewrite andb_assoc.
Qed.

Lemma final_segment_after_slash (dir : string) (c : ascii) (name : string) :
  is_slash c = true ->
  final_segment (dir ++ String c name) = final_segment name.
Proof.
  intros Hc. induction dir as [|x dir IH]; cbn [append].
  - now rewrite final_segment_cons, Hc.
  - rewrite final_segment_cons, IH.
    assert (N : no_slash (dir ++ String c name) = false).
    { rewrite no_slash_app, no_slash_cons, Hc. cbn.
      now rewrite andb_false_r. }
    rewrite N. now destruct (is_slash x).
Qed.

(** X15.  Only what follows the last slash counts: whatever directory
    part, of either kind of slash, is put in front of a name, the base
    name is the base name of the name alone; a path that ends in a slash
    has the empty base name; and taking the base name twice is taking it
    once. *)
Theorem extractFilename_ignores_directories (dir : string) (c : ascii)
  (name : string) :
  is_slash c = true ->
  _extractFilename (dir ++ String c name) = _extractFilename name /\
  _extractFilename (dir ++ String c "") = "" /\
  _extractFilename (_extractFilename name) = _extractFilename name.
Proof.
  intros Hc. rewrite !extractFilename_is_final_segment.
  rewrite !final_segment_after_slash by exact Hc.
  repeat split.
  apply final_segment_no_slash, final_segment_has_no_slash.
Qed.

Lemma extractFilename_ignores_directories_witness :
  _extractFilename ("C:\work/src" ++ String "\" "log.h") =
  _extractFilename "log.h".
Proof.
  apply (extractFilename_ignores_directories "C:\work/src" "\" "log.h").
  reflexivity.
Defined.

(** ** [shutdown] without a thread *)

(** X16.  [shutdown()] needs a consumer thread to join: in every state of
    every execution in which there is none (before the first [init], or
    after a completed [shutdown()]), [shutdown()] does not wait and does
    not return; it sets the stop flag, leaves everything else as it was,
    and exits by the [std::system_error] of [join]. *)
Theorem shutdown_without_thread_throws (s : state) :
  reachable s ->
  _tAsyncThread s = not_a_thread ->
  shutdown s = Throw system_error (set_bStopThread true s).
Proof.
  intros R T. pose proof (reachable_inv s R) as I.
  unfold inv, mutex_ok in I. apply andb_prop in I as [I _].
  rewrite T in I. destruct (_tMutex s) as [[]|] eqn:M; try discriminate I.
  open_state s. cbn in T, M. subst. reflexivity.
Qed.

Lemma shutdown_without_thread_throws_witness :
  shutdown (Logger_new "" no_files) =
    Throw system_error (set_bStopThread true (Logger_new "" no_files)).
Proof.
  apply shutdown_without_thread_throws.
  - exists "", no_files, []. reflexivity.
  - reflexivity.
Defined.
